(** * Watchdog: liveness monitor with fallback notification

    A shallow embedding of [agent/action/watchdog.py] (class [Watchdog]) and
    the properties of its state machine and of its notification router.

    Modelling conventions.
    - Every public method of [Watchdog] runs under [self._lock]; a method is
      therefore one atomic step of the model.
    - [datetime.now()] is a reading of an external clock.  Timestamps are
      integers counting microseconds (the resolution of [datetime]); the
      n-th reading taken during a run is [now_at env n].
    - [elapsed_ms] is a float: [total_seconds()] is the quotient of the
      microseconds by 10**6 and the product by 1000 follows, each rounded
      to the nearest binary64 number, ties to even.  The values are
      rationals; the comparison with the integer threshold is exact, as
      Python's is.
    - [MaaLog_Debug] and [MaaLog_Info] only write diagnostics and are left
      out; every other statement of the methods is embedded.
    - What the configuration accessors return, how timestamps are rendered
      and what a notifier's [send_message] does (return a truth value or
      raise) belong to the environment [Env]. *)

From Stdlib Require Import ZArith List String Ascii Bool Lia DecimalString.
From Stdlib Require Import QArith Qround Qpower Lqa.
Import ListNotations.

Local Open Scope string_scope.
Local Open Scope Z_scope.
Local Open Scope list_scope.

(** ** Strings *)

Definition nl : string := String (ascii_of_nat 10) EmptyString.

(** Concatenation of the pieces of an f-string. *)
Definition fstring (pieces : list string) : string :=
  fold_right String.append EmptyString pieces.

(** [f"{n}"] for an integer. *)
Definition str_of_int (z : Z) : string := NilZero.string_of_int (Z.to_int z).

(** Python truthiness of a string: non-empty. *)
Definition truthy (s : string) : bool := negb (String.eqb s EmptyString).

(** [x in xs] for a list of strings. *)
Definition str_in (x : string) (xs : list string) : bool :=
  existsb (String.eqb x) xs.

(** ** Notifiers and the environment *)

Inductive Notifier : Type :=
| TelegramNotifier (bot_token chat_id : string)
| WeChatWorkNotifier (webhook_key : string).

(** What one call of [notifier.send_message(message)] does. *)
Inductive outcome : Type :=
| Returned (ok : bool)
| Raised (e : string).

Record Env : Type := mkEnv {
  (** successive readings of [datetime.now()] *)
  now_at : nat -> Z;
  (** [t.strftime('%Y-%m-%d %H:%M:%S')] *)
  strftime : Z -> string;
  (** [f"{us / 1000:.1f}"] for a duration in microseconds *)
  format_1f : Z -> string;
  get_default_ext_notify : option string;
  get_available_notifiers : list string;
  get_telegram_config : string * string;
  get_wechat_config : string;
  (** [send_message env d n m]: the call [n.send_message(m)] made during
      the [d]-th invocation of [_send_notification].  Within one invocation
      a notifier is called at most once (see [try_order_NoDup]). *)
  send_message : nat -> Notifier -> string -> outcome
}.

(** ** The watchdog object *)

Record Watchdog : Type := mkWatchdog {
  _is_running : bool;
  _is_timeout_occurred : bool;
  _timeout_ms : Z;
  _last_feed_time : option Z;
  _start_info : string;
  _telegram_notifier : option Notifier;
  _wechat_notifier : option Notifier
}.

(** [Watchdog.__init__] *)
Definition __init__ : Watchdog :=
  mkWatchdog false false 0 None EmptyString None None.

Definition set_is_running (b : bool) (s : Watchdog) : Watchdog :=
  mkWatchdog b (_is_timeout_occurred s) (_timeout_ms s) (_last_feed_time s)
             (_start_info s) (_telegram_notifier s) (_wechat_notifier s).

Definition set_is_timeout_occurred (b : bool) (s : Watchdog) : Watchdog :=
  mkWatchdog (_is_running s) b (_timeout_ms s) (_last_feed_time s)
             (_start_info s) (_telegram_notifier s) (_wechat_notifier s).

Definition set_timeout_ms (t : Z) (s : Watchdog) : Watchdog :=
  mkWatchdog (_is_running s) (_is_timeout_occurred s) t (_last_feed_time s)
             (_start_info s) (_telegram_notifier s) (_wechat_notifier s).

Definition set_last_feed_time (t : option Z) (s : Watchdog) : Watchdog :=
  mkWatchdog (_is_running s) (_is_timeout_occurred s) (_timeout_ms s) t
             (_start_info s) (_telegram_notifier s) (_wechat_notifier s).

Definition set_start_info (i : string) (s : Watchdog) : Watchdog :=
  mkWatchdog (_is_running s) (_is_timeout_occurred s) (_timeout_ms s)
             (_last_feed_time s) i (_telegram_notifier s) (_wechat_notifier s).

Definition set_telegram_notifier (n : option Notifier) (s : Watchdog) : Watchdog :=
  mkWatchdog (_is_running s) (_is_timeout_occurred s) (_timeout_ms s)
             (_last_feed_time s) (_start_info s) n (_wechat_notifier s).

Definition set_wechat_notifier (n : option Notifier) (s : Watchdog) : Watchdog :=
  mkWatchdog (_is_running s) (_is_timeout_occurred s) (_timeout_ms s)
             (_last_feed_time s) (_start_info s) (_telegram_notifier s) n.

(** ** The world a method runs in

    [self] is the watchdog object; [ticks] counts the clock readings taken
    so far; [dispatched] lists the messages handed to [_send_notification]
    and [sent] the calls of [send_message], both oldest first. *)

Record World : Type := mkWorld {
  self : Watchdog;
  ticks : nat;
  dispatched : list string;
  sent : list (Notifier * string)
}.

Definition init_world : World := mkWorld __init__ 0%nat [] [].

(** ** A state monad with exceptions

    A Python exception leaves the mutations made before it in place, so a
    computation returns the world together with its result. *)

Inductive result (A : Type) : Type :=
| Ret (a : A)
| Exc (e : string).
Arguments Ret {A} a.
Arguments Exc {A} e.

Definition M (A : Type) : Type := World -> result A * World.

Definition ret {A} (a : A) : M A := fun w => (Ret a, w).

Definition bind {A B} (m : M A) (k : A -> M B) : M B :=
  fun w => match m w with
           | (Ret a, w') => k a w'
           | (Exc e, w') => (Exc e, w')
           end.

(** [try: m  except Exception as e: h e] *)
Definition try_except {A} (m : M A) (h : string -> M A) : M A :=
  fun w => match m w with
           | (Ret a, w') => (Ret a, w')
           | (Exc e, w') => h e w'
           end.

Declare Scope wd_scope.
Delimit Scope wd_scope with wd.
Notation "x <- m ;; k" := (bind m (fun x => k))
  (at level 61, m at next level, right associativity) : wd_scope.
Notation "m ;; k" := (bind m (fun _ => k))
  (at level 61, right associativity) : wd_scope.
Local Open Scope wd_scope.

Definition get_self : M Watchdog := fun w => (Ret (self w), w).

Definition modify_self (f : Watchdog -> Watchdog) : M unit :=
  fun w => (Ret tt, mkWorld (f (self w)) (ticks w) (dispatched w) (sent w)).

(** [datetime.now()] *)
Definition datetime_now (env : Env) : M Z :=
  fun w => (Ret (now_at env (ticks w)),
            mkWorld (self w) (S (ticks w)) (dispatched w) (sent w)).

(** Entering [_send_notification]: the message is recorded and the index
    of this invocation returned. *)
Definition enter_dispatch (message : string) : M nat :=
  fun w => (Ret (List.length (dispatched w)),
            mkWorld (self w) (ticks w) (dispatched w ++ [message]) (sent w)).

(** [notifier.send_message(message)] *)
Definition call_send_message (env : Env) (d : nat) (notifier : Notifier)
    (message : string) : M bool :=
  fun w =>
    let w' := mkWorld (self w) (ticks w) (dispatched w)
                      (sent w ++ [(notifier, message)]) in
    match send_message env d notifier message with
    | Returned ok => (Ret ok, w')
    | Raised e => (Exc e, w')
    end.

(** ** The notification router *)

Definition _get_telegram_notifier (env : Env) : M (option Notifier) :=
  s <- get_self ;;
  match _telegram_notifier s with
  | None =>
      let '(bot_token, chat_id) := get_telegram_config env in
      if truthy bot_token && truthy chat_id then
        modify_self (set_telegram_notifier
                       (Some (TelegramNotifier bot_token chat_id))) ;;
        ret (Some (TelegramNotifier bot_token chat_id))
      else ret None
  | Some n => ret (Some n)
  end.

Definition _get_wechat_notifier (env : Env) : M (option Notifier) :=
  s <- get_self ;;
  match _wechat_notifier s with
  | None =>
      let webhook_key := get_wechat_config env in
      if truthy webhook_key then
        modify_self (set_wechat_notifier
                       (Some (WeChatWorkNotifier webhook_key))) ;;
        ret (Some (WeChatWorkNotifier webhook_key))
      else ret None
  | Some n => ret (Some n)
  end.

(** The list [try_order] built at the head of [_send_notification]. *)
Definition try_order (default_platform : option string)
    (available_platforms : list string) : list string :=
  let start :=
    match default_platform with
    | Some d => if truthy d && str_in d available_platforms then [d] else []
    | None => []
    end in
  fold_left (fun order platform =>
               if str_in platform order then order else order ++ [platform])
            available_platforms start.

(** The body of [for platform in try_order].  [Some b] stands for
    [return b] out of [_send_notification], [None] for going on with the
    next platform. *)
Definition try_platform (env : Env) (d : nat) (message : string)
    (platform : string) : M (option bool) :=
  try_except
    (if String.eqb platform "telegram" then
       notifier <- _get_telegram_notifier env ;;
       match notifier with
       | Some n =>
           ok <- call_send_message env d n message ;;
           if ok then ret (Some true) else ret None
       | None => ret None
       end
     else if String.eqb platform "wechat" then
       notifier <- _get_wechat_notifier env ;;
       match notifier with
       | Some n =>
           ok <- call_send_message env d n message ;;
           if ok then ret (Some true) else ret None
       | None => ret None
       end
     else ret None)
    (fun _ => ret None).

Fixpoint send_loop (env : Env) (d : nat) (message : string)
    (order : list string) : M bool :=
  match order with
  | [] => ret false
  | platform :: rest =>
      r <- try_platform env d message platform ;;
      match r with
      | Some b => ret b
      | None => send_loop env d message rest
      end
  end.

Definition _send_notification (env : Env) (message : string) : M bool :=
  d <- enter_dispatch message ;;
  let default_platform := get_default_ext_notify env in
  let available_platforms := get_available_notifiers env in
  match available_platforms with
  | [] => ret false
  | _ :: _ =>
      send_loop env d message (try_order default_platform available_platforms)
  end.

(** ** The state machine *)

(** The texts of the alerts; [now] is the reading of the clock taken while
    the f-string is evaluated. *)
Definition start_message (env : Env) (timeout_ms : Z) (string_info : string)
    (now : Z) : string :=
  fstring ["[WATCHDOG] Auto-Started"; nl; nl;
           "Timeout: "; str_of_int timeout_ms; "ms"; nl; nl;
           "Info: "; string_info; nl; nl;
           "Time: "; strftime env now].

Definition stop_message (env : Env) (string_info : string) (now : Z)
    : string :=
  fstring ["[WATCHDOG] Auto-Stopped"; nl; nl;
           "Reason: "; string_info; nl; nl;
           "Time: "; strftime env now].

Definition update_message (env : Env) (old_timeout timeout_ms : Z)
    (string_info : string) (now : Z) : string :=
  fstring ["[WATCHDOG] Timeout Updated"; nl; nl;
           "Old Timeout: "; str_of_int old_timeout; "ms"; nl; nl;
           "New Timeout: "; str_of_int timeout_ms; "ms"; nl; nl;
           "Info: "; string_info; nl; nl;
           "Time: "; strftime env now].

(** The timeout alert of [notify]; [elapsed] is the rendered elapsed time
    and [now] the alert time. *)
Definition timeout_message (env : Env) (s : Watchdog) (elapsed : string)
    (now : Z) : string :=
  fstring ["[WATCHDOG] Timeout Alert!"; nl; nl;
           "Start Info: "; _start_info s; nl; nl;
           "Timeout Threshold: "; str_of_int (_timeout_ms s); "ms"; nl; nl;
           "Elapsed Time: "; elapsed; "ms"; nl; nl;
           "Last Feed: ";
           match _last_feed_time s with
           | Some last => strftime env last
           | None => "Never"
           end; nl; nl;
           "Alert Time: "; strftime env now].

Definition _internal_start (env : Env) (timeout_ms : Z) (string_info : string)
    : M bool :=
  modify_self (set_timeout_ms timeout_ms) ;;
  modify_self (set_start_info string_info) ;;
  t <- datetime_now env ;;
  modify_self (set_last_feed_time (Some t)) ;;
  modify_self (set_is_running true) ;;
  modify_self (set_is_timeout_occurred false) ;;
  t' <- datetime_now env ;;
  _send_notification env (start_message env timeout_ms string_info t') ;;
  ret true.

Definition _internal_stop (env : Env) (string_info : string) : M bool :=
  modify_self (set_is_running false) ;;
  t <- datetime_now env ;;
  _send_notification env (stop_message env string_info t) ;;
  ret true.

Definition _update_timeout (env : Env) (timeout_ms : Z) (string_info : string)
    : M bool :=
  s <- get_self ;;
  let old_timeout := _timeout_ms s in
  modify_self (set_timeout_ms timeout_ms) ;;
  t <- datetime_now env ;;
  _send_notification env
    (update_message env old_timeout timeout_ms string_info t) ;;
  ret true.

Definition feed (env : Env) (timeout_ms : option Z) (string_info : string)
    : M bool :=
  s <- get_self ;;
  if negb (_is_running s) then
    let actual_timeout :=
      match timeout_ms with Some t => t | None => 30000 end in
    _internal_start env actual_timeout string_info
  else
    t <- datetime_now env ;;
    modify_self (set_last_feed_time (Some t)) ;;
    modify_self (set_is_timeout_occurred false) ;;
    match timeout_ms with
    | Some x => _update_timeout env x string_info ;; ret true
    | None => ret true
    end.

(** *** Binary64 arithmetic of the elapsed time

    A [datetime] lies in the years 1 to 9999, so an elapsed time is below
    3.2e17 microseconds in absolute value and, unless zero, at least one
    microsecond: the quotient and the product below are zero or normal
    binary64 numbers, and rounding to 53 bits with an unbounded exponent
    is what the float operations do. *)

(** The integer nearest to [x], the even one of two. *)
Definition round_half_even (x : Q) : Z :=
  let f := Qfloor x in
  match (x - inject_Z f ?= 1 # 2)%Q with
  | Lt => f
  | Gt => f + 1
  | Eq => if Z.even f then f else f + 1
  end.

(** The integer part of the binary logarithm of [q], for [0 < q]. *)
Definition floor_log2 (q : Q) : Z :=
  let k := Z.log2 (Qnum q) - Z.log2 (Zpos (Qden q)) in
  if Qle_bool (2 ^ k) q then k else k - 1.

(** The binary64 number nearest to [q], for [0 < q]: a mantissa of 53 bits
    times a power of two. *)
Definition round_binary64_pos (q : Q) : Q :=
  let e := floor_log2 q - 52 in
  (inject_Z (round_half_even (q * 2 ^ (- e))) * 2 ^ e)%Q.

(** The binary64 number nearest to [q]. *)
Definition round_binary64 (q : Q) : Q :=
  match (q ?= 0)%Q with
  | Eq => 0%Q
  | Gt => round_binary64_pos q
  | Lt => (- round_binary64_pos (- q))%Q
  end.

(** [timedelta.total_seconds()] of a duration of [us] microseconds: the
    true division of two integers. *)
Definition total_seconds (us : Z) : Q := round_binary64 (us # 1000000).

(** [(now - last).total_seconds() * 1000] *)
Definition elapsed_ms (now last : Z) : Q :=
  round_binary64 (total_seconds (now - last) * 1000).

(** The relative error of one rounding is at most 2 ** -53. *)
Definition half_ulp : Q := 1 # 9007199254740992.

(** [elapsed_ms > self._timeout_ms] *)
Definition is_timeout (now last timeout_ms : Z) : bool :=
  negb (Qle_bool (elapsed_ms now last) (inject_Z timeout_ms)).

Definition poll (env : Env) : M bool :=
  s <- get_self ;;
  if negb (_is_running s) then ret false
  else
    match _last_feed_time s with
    | None => ret true
    | Some last =>
        now <- datetime_now env ;;
        if is_timeout now last (_timeout_ms s)
           && negb (_is_timeout_occurred s)
        then modify_self (set_is_timeout_occurred true) ;; ret true
        else ret false
    end.

Definition notify (env : Env) : M bool :=
  s <- get_self ;;
  if negb (_is_running s) then ret false
  else
    elapsed <- match _last_feed_time s with
               | Some last =>
                   now <- datetime_now env ;; ret (format_1f env (now - last))
               | None => ret "inf"
               end ;;
    t <- datetime_now env ;;
    notification_sent <-
      _send_notification env (timeout_message env s elapsed t) ;;
    _internal_stop env "Timeout occurred" ;;
    ret notification_sent.

Definition manual_stop (env : Env) (string_info : string) : M bool :=
  s <- get_self ;;
  if negb (_is_running s) then ret false
  else
    _internal_stop env (fstring ["Manual stop - "; string_info]) ;;
    ret true.

(** The read-only properties. *)
Definition is_running (w : World) : bool := _is_running (self w).
Definition timeout_occurred (w : World) : bool := _is_timeout_occurred (self w).
Definition current_timeout_ms (w : World) : Z := _timeout_ms (self w).

(** ** Runs of the public methods *)

Inductive call : Type :=
| Feed (timeout_ms : option Z) (string_info : string)
| Poll
| Notify
| ManualStop (string_info : string).

Definition run_call (env : Env) (c : call) : M bool :=
  match c with
  | Feed timeout_ms string_info => feed env timeout_ms string_info
  | Poll => poll env
  | Notify => notify env
  | ManualStop string_info => manual_stop env string_info
  end.

(** The worlds a watchdog can be in: a fresh instance, and whatever a
    method call leaves behind, the environment of each call being
    arbitrary. *)
Inductive reachable : World -> Prop :=
| reachable_init : reachable init_world
| reachable_call env c w :
    reachable w -> reachable (snd (run_call env c w)).

(** [n] calls of [poll] in a row, with their results in order. *)
Fixpoint polls (env : Env) (n : nat) : M (list bool) :=
  match n with
  | O => ret []
  | S n' => b <- poll env ;; bs <- polls env n' ;; ret (b :: bs)
  end.

(** * Vocabulary of the specification *)

(** The notifier a platform name stands for in watchdog [s]: the cached
    handle, or the one [_get_telegram_notifier] / [_get_wechat_notifier]
    would create from the configuration; none for any other name. *)
Definition notifier_for (env : Env) (s : Watchdog) (platform : string)
    : option Notifier :=
  if String.eqb platform "telegram" then
    match _telegram_notifier s with
    | Some n => Some n
    | None =>
        let '(bot_token, chat_id) := get_telegram_config env in
        if truthy bot_token && truthy chat_id
        then Some (TelegramNotifier bot_token chat_id) else None
    end
  else if String.eqb platform "wechat" then
    match _wechat_notifier s with
    | Some n => Some n
    | None =>
        let webhook_key := get_wechat_config env in
        if truthy webhook_key
        then Some (WeChatWorkNotifier webhook_key) else None
    end
  else None.

(** The attempt on [platform] succeeds: a notifier exists and its
    [send_message] returns true. *)
Definition attempt_ok (env : Env) (s : Watchdog) (d : nat) (message : string)
    (platform : string) : bool :=
  match notifier_for env s platform with
  | Some n =>
      match send_message env d n message with
      | Returned ok => ok
      | Raised _ => false
      end
  | None => false
  end.

(** The calls of [send_message] that attempting [platforms] makes. *)
Definition calls (env : Env) (s : Watchdog) (message : string)
    (platforms : list string) : list (Notifier * string) :=
  flat_map (fun p => match notifier_for env s p with
                     | Some n => [(n, message)]
                     | None => []
                     end) platforms.

(** The platforms the loop gets to: up to and including the first one
    whose attempt succeeds. *)
Fixpoint attempted (ok : string -> bool) (order : list string) : list string :=
  match order with
  | [] => []
  | p :: rest => if ok p then [p] else p :: attempted ok rest
  end.

(** The fields of the watchdog the router never writes. *)
Definition same_core (s s' : Watchdog) : Prop :=
  _is_running s' = _is_running s /\
  _is_timeout_occurred s' = _is_timeout_occurred s /\
  _timeout_ms s' = _timeout_ms s /\
  _last_feed_time s' = _last_feed_time s /\
  _start_info s' = _start_info s.

(** What the router leaves as it is, apart from the log [sent]. *)
Definition router_frame (env : Env) (w w' : World) : Prop :=
  same_core (self w) (self w') /\
  ticks w' = ticks w /\
  (forall q, notifier_for env (self w') q = notifier_for env (self w) q).

(** First occurrences of the elements of [l] that are not in [seen]. *)
Fixpoint dedup (seen l : list string) : list string :=
  match l with
  | [] => []
  | x :: r => if str_in x seen then dedup seen r
              else x :: dedup (seen ++ [x]) r
  end.

(** The default platform the order starts with, if any. *)
Definition order_start (default_platform : option string)
    (available_platforms : list string) : list string :=
  match default_platform with
  | Some d => if truthy d && str_in d available_platforms then [d] else []
  | None => []
  end.

(** What a dispatch of [message] from world [w] returns. *)
Definition dispatch_ok (env : Env) (w : World) (message : string) : bool :=
  existsb (attempt_ok env (self w) (List.length (dispatched w)) message)
          (try_order (get_default_ext_notify env)
                     (get_available_notifiers env)).

(** The world after [n] more readings of the clock. *)
Definition advance (n : nat) (w : World) : World :=
  mkWorld (self w) (n + ticks w) (dispatched w) (sent w).

(** The timeout alert [notify] builds in world [w], with the readings of
    the clock it takes on the way. *)
Definition notify_alert (env : Env) (w : World) : string :=
  match _last_feed_time (self w) with
  | Some last =>
      timeout_message env (self w)
        (format_1f env (now_at env (ticks w) - last))
        (now_at env (S (ticks w)))
  | None => timeout_message env (self w) "inf" (now_at env (ticks w))
  end.

(** The world in which [notify] dispatches the alert. *)
Definition notify_world (w : World) : World :=
  match _last_feed_time (self w) with
  | Some _ => advance 2 w
  | None => advance 1 w
  end.

(** The environment [env] with another behaviour of the notifiers. *)
Definition with_send_message (env : Env)
    (f : nat -> Notifier -> string -> outcome) : Env :=
  mkEnv (now_at env) (strftime env) (format_1f env)
        (get_default_ext_notify env) (get_available_notifiers env)
        (get_telegram_config env) (get_wechat_config env) f.

(** ** A scenario

    Threshold 1000 ms; the clock reads 0 while the watchdog is armed, then
    500 ms, 1100 ms and 1200 ms at three polls, and 1300 ms and more
    afterwards.  Telegram and Enterprise WeChat are both enabled, WeChat is
    the default; WeChat's notifier raises, Telegram's delivers. *)

Definition scenario_clock (n : nat) : Z :=
  match n with
  | 0%nat | 1%nat => 0
  | 2%nat => 500000
  | 3%nat => 1100000
  | 4%nat => 1200000
  | _ => 1300000 + Z.of_nat n
  end.

Definition scenario_env : Env :=
  mkEnv scenario_clock
        (fun _ => "2025-01-01 00:00:00") (fun _ => "0.0")
        (Some "wechat") ["telegram"; "wechat"]
        ("token", "chat") "key"
        (fun _ n _ =>
           match n with
           | WeChatWorkNotifier _ => Raised "connection refused"
           | TelegramNotifier _ _ => Returned true
           end).

(** The same with notifiers that return false. *)
Definition failing_env : Env :=
  with_send_message scenario_env (fun _ _ _ => Returned false).

(** The same with Telegram not delivering the first dispatch, delivering
    any later one. *)
Definition late_env : Env :=
  with_send_message scenario_env
    (fun d n _ =>
       match n with
       | WeChatWorkNotifier _ => Raised "connection refused"
       | TelegramNotifier _ _ => Returned (negb (Nat.eqb d 1))
       end).

(** No platform enabled. *)
Definition silent_env : Env :=
  mkEnv scenario_clock
        (fun _ => "2025-01-01 00:00:00") (fun _ => "0.0")
        None [] ("", "") "" (fun _ _ _ => Returned true).

(** The watchdog armed with [feed(1000)]. *)
Definition armed : World :=
  snd (run_call scenario_env (Feed (Some 1000) "job") init_world).

(** Polled at 500 ms and at 1100 ms. *)
Definition signalled : World :=
  snd (run_call scenario_env Poll (snd (run_call scenario_env Poll armed))).

(** And stopped by [notify]. *)
Definition stopped : World := snd (run_call scenario_env Notify signalled).

(** ** Sequences of calls, alerts and notifier handles *)

(** The calls of [cs] in a row, with their results in order. *)
Fixpoint run_calls (env : Env) (cs : list call) : M (list bool) :=
  match cs with
  | [] => ret []
  | c :: cs' => b <- run_call env c ;; bs <- run_calls env cs' ;; ret (b :: bs)
  end.

Definition is_feed (c : call) : bool :=
  match c with Feed _ _ => true | _ => false end.

(** The alerts call [c] hands to the router from world [w], in order. *)
Definition alerts_of (env : Env) (c : call) (w : World) : list string :=
  match c with
  | Feed timeout_ms string_info =>
      if _is_running (self w) then
        match timeout_ms with
        | Some x =>
            [update_message env (_timeout_ms (self w)) x string_info
               (now_at env (S (ticks w)))]
        | None => []
        end
      else
        [start_message env
           (match timeout_ms with Some t => t | None => 30000 end)
           string_info (now_at env (S (ticks w)))]
  | Poll => []
  | Notify =>
      if _is_running (self w) then
        [notify_alert env w;
         stop_message env "Timeout occurred"
           (now_at env (ticks (notify_world w)))]
      else []
  | ManualStop string_info =>
      if _is_running (self w) then
        [stop_message env (fstring ["Manual stop - "; string_info])
           (now_at env (ticks w))]
      else []
  end.

(** How the cached notifier handles of [s'] come from those of [s]: each
    is the one of [s], or was missing in [s] and has been created from
    complete credentials of [env]. *)
Definition handles_step (env : Env) (s s' : Watchdog) : Prop :=
  (_telegram_notifier s' = _telegram_notifier s \/
   (_telegram_notifier s = None /\
    truthy (fst (get_telegram_config env))
    && truthy (snd (get_telegram_config env)) = true /\
    _telegram_notifier s'
    = Some (TelegramNotifier (fst (get_telegram_config env))
                             (snd (get_telegram_config env))))) /\
  (_wechat_notifier s' = _wechat_notifier s \/
   (_wechat_notifier s = None /\
    truthy (get_wechat_config env) = true /\
    _wechat_notifier s' = Some (WeChatWorkNotifier (get_wechat_config env)))).

(** A handle is what its constructor makes of non-empty credentials. *)
Definition handles_well_formed (s : Watchdog) : Prop :=
  (forall n, _telegram_notifier s = Some n ->
     exists bot_token chat_id,
       n = TelegramNotifier bot_token chat_id /\
       truthy bot_token = true /\ truthy chat_id = true) /\
  (forall n, _wechat_notifier s = Some n ->
     exists webhook_key,
       n = WeChatWorkNotifier webhook_key /\ truthy webhook_key = true).

(** A computation steps the handles as [handles_step] says, from every
    world. *)
Definition keeps_handles (env : Env) {A : Type} (m : M A) : Prop :=
  forall w, handles_step env (self w) (self (snd (m w))).

(** A computation that ends in a result, never in an exception. *)
Definition never_raises {A : Type} (m : M A) : Prop :=
  forall w, exists a w', m w = (Ret a, w').

(** Every message a notifier was called with had been handed to the
    router. *)
Definition sent_was_dispatched (w : World) : Prop :=
  forall n m, In (n, m) (sent w) -> In m (dispatched w).

(** A computation keeps the property [P] of worlds. *)
Definition preserves (P : World -> Prop) {A : Type} (m : M A) : Prop :=
  forall w, P w -> P (snd (m w)).

(** ** The custom actions

    [WatchdogFeedAction.run] and [WatchdogStopAction.run] receive
    [argv.custom_action_param], any Python value, and call the global
    watchdog, which is the [self] of the world.  [json.loads] is a
    parameter: [None] stands for [json.JSONDecodeError].  The watchdog is
    embedded for an integer or absent timeout and a string info; on a
    parameter that yields anything else the model of [run] is undefined
    ([None]). *)

#[local] Unset Elimination Schemes.
Inductive pyval : Type :=
| PNone
| PBool (b : bool)
| PInt (z : Z)
| PFloat (repr : string)
| PStr (s : string)
| PList (items : list pyval)
| PDict (items : list (string * pyval)).
#[local] Set Elimination Schemes.

(** [d.get(key)] on the items of a dict. *)
Fixpoint dict_lookup (items : list (string * pyval)) (key : string)
    : option pyval :=
  match items with
  | [] => None
  | (k, v) :: rest => if String.eqb k key then Some v else dict_lookup rest key
  end.

(** [d.get(key, default)] *)
Definition dict_get (items : list (string * pyval)) (key : string)
    (default : pyval) : pyval :=
  match dict_lookup items key with Some v => v | None => default end.

(** The values of [timeout_ms] and [string_info] with which
    [WatchdogFeedAction.run] calls [feed]. *)
Definition feed_action_args (json_loads : string -> option pyval)
    (param : pyval) : pyval * pyval :=
  let timeout_ms := PNone in
  let string_info := PStr "" in
  let '(param, string_info) :=
    match param with
    | PStr s =>
        match json_loads s with
        | Some v => (v, string_info)
        | None => (param, param)
        end
    | _ => (param, string_info)
    end in
  match param with
  | PDict items =>
      (match dict_lookup items "timeout_ms" with
       | Some v => v
       | None => timeout_ms
       end,
       dict_get items "info" (PStr ""))
  | _ => (timeout_ms, string_info)
  end.

(** The value of [string_info] with which [WatchdogStopAction.run] calls
    [manual_stop]. *)
Definition stop_action_info (json_loads : string -> option pyval)
    (param : pyval) : pyval :=
  match param with
  | PStr s =>
      match json_loads s with
      | None => param
      | Some (PDict items) => dict_get items "info" (PStr "")
      | Some _ => PStr ""
      end
  | PDict items => dict_get items "info" (PStr "")
  | _ => PStr ""
  end.

(** The timeouts and infos the embedding of the watchdog covers. *)
Definition as_timeout (v : pyval) : option (option Z) :=
  match v with
  | PNone => Some None
  | PInt z => Some (Some z)
  | _ => None
  end.

Definition as_info (v : pyval) : option string :=
  match v with
  | PStr s => Some s
  | _ => None
  end.

(** [WatchdogFeedAction.run]; the result is the [success] of the
    [RunResult]. *)
Definition WatchdogFeedAction_run (json_loads : string -> option pyval)
    (env : Env) (param : pyval) : option (M bool) :=
  let '(timeout_ms, string_info) := feed_action_args json_loads param in
  match as_timeout timeout_ms, as_info string_info with
  | Some timeout_ms, Some string_info =>
      Some (try_except
              (success <- feed env timeout_ms string_info ;; ret success)
              (fun _ => ret false))
  | _, _ => None
  end.

(** [WatchdogStopAction.run] *)
Definition WatchdogStopAction_run (json_loads : string -> option pyval)
    (env : Env) (param : pyval) : option (M bool) :=
  match as_info (stop_action_info json_loads param) with
  | Some string_info =>
      Some (try_except
              (success <- manual_stop env string_info ;; ret success)
              (fun _ => ret false))
  | None => None
  end.

(** The double quote. *)
Definition dq : string := String (ascii_of_nat 34) EmptyString.

(** The JSON text of an object with the keys [timeout_ms] (5000) and
    [info] (job), and the one of an object with [info] alone. *)
Definition json_timeout_and_info : string :=
  fstring ["{"; dq; "timeout_ms"; dq; ": 5000, ";
           dq; "info"; dq; ": "; dq; "job"; dq; "}"].

Definition json_info_only : string :=
  fstring ["{"; dq; "info"; dq; ": "; dq; "job"; dq; "}"].

(** [json.loads] on the texts of the examples: the two objects above and
    the number 5000.  The other texts of the examples, [job 7] and [done],
    are not JSON. *)
Definition toy_json_loads (s : string) : option pyval :=
  if String.eqb s json_timeout_and_info
  then Some (PDict [("timeout_ms", PInt 5000); ("info", PStr "job")])
  else if String.eqb s json_info_only
  then Some (PDict [("info", PStr "job")])
  else if String.eqb s "5000" then Some (PInt 5000)
  else None.

(** Platforms are enabled but none can be used: one has an unknown name,
    the other lacks its token. *)
Definition unusable_env : Env :=
  mkEnv scenario_clock
        (fun _ => "2025-01-01 00:00:00") (fun _ => "0.0")
        (Some "telegram") ["discord"; "telegram"]
        ("", "chat") "" (fun _ _ _ => Returned true).

(** * Proofs *)

Lemma same_core_refl s : same_core s s.
Proof. repeat split. Qed.

Lemma same_core_trans s1 s2 s3 :
  same_core s1 s2 -> same_core s2 s3 -> same_core s1 s3.
Proof. unfold same_core; intuition congruence. Qed.

Lemma router_frame_refl env w : router_frame env w w.
Proof. repeat split. Qed.

Lemma router_frame_trans env w1 w2 w3 :
  router_frame env w1 w2 -> router_frame env w2 w3 -> router_frame env w1 w3.
Proof.
  intros (C1 & T1 & N1) (C2 & T2 & N2); split; [|split].
  - eapply same_core_trans; eassumption.
  - congruence.
  - intros q; rewrite N2; apply N1.
Qed.

Lemma str_in_In x xs : str_in x xs = true <-> In x xs.
Proof.
  unfold str_in; rewrite existsb_exists; split.
  - intros (y & Hy & E); apply String.eqb_eq in E; subst; exact Hy.
  - intros H; exists x; split; [exact H | apply String.eqb_refl].
Qed.

Lemma str_in_app x xs ys : str_in x (xs ++ ys) = str_in x xs || str_in x ys.
Proof. apply existsb_app. Qed.

(** ** The try order *)

Lemma try_order_fold start l :
  fold_left (fun order platform =>
               if str_in platform order then order else order ++ [platform])
            l start
  = start ++ dedup start l.
Proof.
  revert start; induction l as [|x r IH]; intros start; simpl.
  - now rewrite app_nil_r.
  - destruct (str_in x start); rewrite IH; [reflexivity|].
    now rewrite <- app_assoc.
Qed.

Lemma dedup_In seen l x :
  In x (dedup seen l) <-> In x l /\ ~ In x seen.
Proof.
  revert seen; induction l as [|y r IH]; intros seen; simpl.
  - tauto.
  - destruct (str_in y seen) eqn:E.
    + apply str_in_In in E. rewrite IH. split.
      * tauto.
      * intros [[->|H] N]; tauto.
    + assert (N : ~ In y seen) by (rewrite <- str_in_In; congruence).
      simpl; rewrite IH, in_app_iff; simpl. split.
      * intros [->|[H1 H2]]; tauto.
      * intros [[->|H] N']; [tauto|].
        destruct (string_dec y x) as [->|D]; [tauto|]. right; tauto.
Qed.

Lemma dedup_NoDup seen l : NoDup (dedup seen l).
Proof.
  revert seen; induction l as [|y r IH]; intros seen; simpl.
  - constructor.
  - destruct (str_in y seen); [apply IH|].
    constructor; [|apply IH].
    rewrite dedup_In, in_app_iff; simpl; tauto.
Qed.

Lemma dedup_filter seen l :
  NoDup l ->
  dedup seen l = filter (fun p => negb (str_in p seen)) l.
Proof.
  revert seen; induction l as [|y r IH]; intros seen ND; simpl; [reflexivity|].
  inversion ND as [|? ? Hy ND']; subst.
  destruct (str_in y seen) eqn:E; simpl; [now apply IH|].
  rewrite (IH _ ND'). f_equal.
  apply filter_ext_in; intros a Ha.
  rewrite str_in_app; simpl. rewrite orb_false_r.
  destruct (String.eqb_spec a y) as [->|_]; [tauto|].
  now rewrite orb_false_r.
Qed.

Lemma try_order_eq dp av :
  try_order dp av = order_start dp av ++ dedup (order_start dp av) av.
Proof. unfold try_order, order_start; apply try_order_fold. Qed.

Lemma order_start_In dp av x : In x (order_start dp av) -> In x av.
Proof.
  unfold order_start; destruct dp as [d|]; simpl; [|tauto].
  destruct (truthy d); simpl; [|tauto].
  destruct (str_in d av) eqn:E; simpl; [|tauto].
  intros [<-|[]]; now apply str_in_In.
Qed.

Lemma order_start_NoDup dp av : NoDup (order_start dp av).
Proof.
  unfold order_start; destruct dp as [d|]; [|constructor].
  destruct (truthy d && str_in d av); repeat constructor; simpl; tauto.
Qed.

Lemma try_order_NoDup dp av : NoDup (try_order dp av).
Proof.
  rewrite try_order_eq.
  assert (H : forall a b : list string,
             NoDup a -> NoDup b -> (forall x, In x a -> ~ In x b) ->
             NoDup (a ++ b)).
  { induction a as [|x a IH]; simpl; intros b Ha Hb D; [exact Hb|].
    inversion Ha; subst. constructor.
    - rewrite in_app_iff; intros [?|?]; [tauto|]. eapply D; eauto.
    - apply IH; auto. }
  apply H; [apply order_start_NoDup | apply dedup_NoDup|].
  intros x Hx; rewrite dedup_In; tauto.
Qed.

Lemma try_order_In dp av x : In x (try_order dp av) <-> In x av.
Proof.
  rewrite try_order_eq, in_app_iff, dedup_In. split.
  - intros [H|[H _]]; [eapply order_start_In; eauto | exact H].
  - intros H. destruct (in_dec string_dec x (order_start dp av)); tauto.
Qed.

(** ** One attempt and the loop *)

(** Unfolds the monad's operations and the primitive actions. *)
Ltac run_m :=
  cbv beta iota delta [bind ret try_except get_self modify_self datetime_now
                       enter_dispatch call_send_message];
  cbn.

Lemma bind_Ret {A B} (m : M A) (k : A -> M B) w a w' :
  m w = (Ret a, w') -> bind m k w = k a w'.
Proof. intros E; unfold bind; now rewrite E. Qed.

Lemma bind_Exc {A B} (m : M A) (k : A -> M B) w e w' :
  m w = (Exc e, w') -> bind m k w = (Exc e, w').
Proof. intros E; unfold bind; now rewrite E. Qed.

Lemma notifier_for_cache_telegram env s n :
  notifier_for env s "telegram" = Some n ->
  forall q, notifier_for env (set_telegram_notifier (Some n) s) q
            = notifier_for env s q.
Proof.
  intros H q; unfold notifier_for in *; cbn in *.
  destruct (String.eqb q "telegram"); [now rewrite H | reflexivity].
Qed.

Lemma notifier_for_cache_wechat env s n :
  notifier_for env s "wechat" = Some n ->
  forall q, notifier_for env (set_wechat_notifier (Some n) s) q
            = notifier_for env s q.
Proof.
  intros H q; unfold notifier_for in *; cbn in *.
  destruct (String.eqb q "telegram"); [reflexivity|].
  destruct (String.eqb q "wechat"); [now rewrite H | reflexivity].
Qed.

Lemma _get_telegram_notifier_spec env w :
  exists w',
    _get_telegram_notifier env w
    = (Ret (notifier_for env (self w) "telegram"), w') /\
    sent w' = sent w /\ dispatched w' = dispatched w /\
    router_frame env w w'.
Proof.
  destruct w as [s tk dl sl].
  destruct (notifier_for env s "telegram") as [n|] eqn:N;
    unfold _get_telegram_notifier; run_m;
    unfold notifier_for in N; cbn in N;
    destruct (_telegram_notifier s) as [c|] eqn:Ec; try discriminate.
  - inversion N; subst. eexists; split; [reflexivity|].
    repeat split.
  - destruct (get_telegram_config env) as [bot_token chat_id] eqn:Eg.
    destruct (truthy bot_token && truthy chat_id) eqn:Ey; [|discriminate].
    inversion N; subst. run_m. eexists; split; [reflexivity|].
    cbn. repeat split. intros q. apply notifier_for_cache_telegram.
    unfold notifier_for; cbn. now rewrite Ec, Eg, Ey.
  - destruct (get_telegram_config env) as [bot_token chat_id] eqn:Eg.
    destruct (truthy bot_token && truthy chat_id) eqn:Ey; [discriminate|].
    run_m. eexists; split; [reflexivity|]. repeat split.
Qed.

Lemma _get_wechat_notifier_spec env w :
  exists w',
    _get_wechat_notifier env w
    = (Ret (notifier_for env (self w) "wechat"), w') /\
    sent w' = sent w /\ dispatched w' = dispatched w /\
    router_frame env w w'.
Proof.
  destruct w as [s tk dl sl].
  destruct (notifier_for env s "wechat") as [n|] eqn:N;
    unfold _get_wechat_notifier; run_m;
    unfold notifier_for in N; cbn in N;
    destruct (_wechat_notifier s) as [c|] eqn:Ec; try discriminate.
  - inversion N; subst. eexists; split; [reflexivity|].
    repeat split.
  - destruct (truthy (get_wechat_config env)) eqn:Ey; [|discriminate].
    inversion N; subst. run_m. eexists; split; [reflexivity|].
    cbn. repeat split. intros q. apply notifier_for_cache_wechat.
    unfold notifier_for; cbn. now rewrite Ec, Ey.
  - destruct (truthy (get_wechat_config env)) eqn:Ey; [discriminate|].
    run_m. eexists; split; [reflexivity|]. repeat split.
Qed.

Lemma try_platform_spec env d message platform w :
  exists w',
    try_platform env d message platform w
    = (Ret (if attempt_ok env (self w) d message platform
            then Some true else None), w') /\
    sent w' = sent w ++ calls env (self w) message [platform] /\
    dispatched w' = dispatched w /\
    router_frame env w w'.
Proof.
  assert (G : exists w1,
             (if String.eqb platform "telegram"
              then _get_telegram_notifier env
              else if String.eqb platform "wechat"
                   then _get_wechat_notifier env
                   else ret None) w
             = (Ret (notifier_for env (self w) platform), w1) /\
             sent w1 = sent w /\ dispatched w1 = dispatched w /\
             router_frame env w w1).
  { destruct (String.eqb_spec platform "telegram") as [->|Nt];
      [apply _get_telegram_notifier_spec|].
    destruct (String.eqb_spec platform "wechat") as [->|Nw];
      [apply _get_wechat_notifier_spec|].
    exists w; unfold notifier_for.
    apply String.eqb_neq in Nt, Nw; rewrite Nt, Nw.
    repeat split. }
  destruct G as (w1 & G & S1 & D1 & F1).
  unfold try_platform, try_except, attempt_ok, calls; cbn [flat_map].
  rewrite app_nil_r.
  destruct (String.eqb platform "telegram");
    [|destruct (String.eqb platform "wechat")];
    try (rewrite (bind_Ret _ _ _ _ _ G);
         destruct (notifier_for env (self w) platform) as [n|];
         [ destruct w1 as [s1 t1 d1 l1]; cbn in S1, D1; subst; run_m;
           destruct (send_message env d n message) as [[|]|e];
           cbn; eexists; (split; [reflexivity|]); cbn; repeat split;
           apply F1
         | run_m; exists w1; rewrite app_nil_r; repeat split;
           try assumption; apply F1 ]).
  unfold ret in G; inversion G as [[N W]].
  exists w1; rewrite app_nil_r; repeat split.
Qed.

Lemma attempted_first_success ok order : forall k p,
  nth_error order k = Some p ->
  ok p = true ->
  (forall q, In q (firstn k order) -> ok q = false) ->
  attempted ok order = firstn (S k) order /\ existsb ok order = true.
Proof.
  induction order as [|x rest IH]; intros k p Hk Hp Hpre.
  - destruct k; discriminate.
  - destruct k as [|k]; cbn in Hk.
    + inversion Hk; subst. cbn. rewrite Hp. now destruct rest.
    + assert (Hx : ok x = false) by (apply Hpre; cbn; auto).
      destruct (IH k p Hk Hp) as (A & E).
      { intros q Hq; apply Hpre; cbn; auto. }
      cbn [attempted existsb]. rewrite Hx, A, E. split; reflexivity.
Qed.

Lemma attempted_all_fail ok order :
  (forall q, In q order -> ok q = false) ->
  attempted ok order = order /\ existsb ok order = false.
Proof.
  induction order as [|x rest IH]; intros H; [split; reflexivity|].
  cbn [attempted existsb]. rewrite (H x) by (cbn; auto).
  destruct IH as (A & E); [intros q Hq; apply H; cbn; auto|].
  now rewrite A, E.
Qed.

Lemma existsb_pointwise (f g : string -> bool) l :
  (forall x, f x = g x) -> existsb f l = existsb g l.
Proof.
  intros H; induction l as [|x r IH]; [reflexivity|].
  cbn. now rewrite H, IH.
Qed.

Lemma attempted_pointwise (f g : string -> bool) l :
  (forall x, f x = g x) -> attempted f l = attempted g l.
Proof.
  intros H; induction l as [|x r IH]; [reflexivity|].
  cbn. now rewrite H, IH.
Qed.

(** The loop over the try order. *)
Lemma send_loop_spec env d message order : forall w,
  exists w',
    send_loop env d message order w
    = (Ret (existsb (attempt_ok env (self w) d message) order), w') /\
    sent w' = sent w
              ++ calls env (self w) message
                   (attempted (attempt_ok env (self w) d message) order) /\
    dispatched w' = dispatched w /\
    router_frame env w w'.
Proof.
  induction order as [|p rest IH]; intros w.
  - exists w; cbn. rewrite app_nil_r. repeat split.
  - destruct (try_platform_spec env d message p w) as (w1 & E & S1 & D1 & F1).
    cbn [send_loop existsb attempted].
    rewrite (bind_Ret _ _ _ _ _ E).
    destruct (attempt_ok env (self w) d message p) eqn:Ok.
    + exists w1. cbn [orb]. repeat split; try assumption; apply F1.
    + destruct (IH w1) as (w2 & E2 & S2 & D2 & F2). cbn [orb].
      assert (A : forall q, attempt_ok env (self w1) d message q
                            = attempt_ok env (self w) d message q).
      { intros q; unfold attempt_ok.
        destruct F1 as (_ & _ & N); now rewrite N. }
      assert (C : forall l, calls env (self w1) message l
                            = calls env (self w) message l).
      { intros l; unfold calls. apply flat_map_ext; intros q.
        destruct F1 as (_ & _ & N); now rewrite N. }
      exists w2. split; [|split; [|split]].
      * rewrite E2. f_equal. f_equal. now apply existsb_pointwise.
      * rewrite S2, S1, C, <- app_assoc.
        rewrite (attempted_pointwise _ _ rest A).
        f_equal. unfold calls. cbn [flat_map]. now rewrite app_nil_r.
      * congruence.
      * eapply router_frame_trans; eassumption.
Qed.

(** ** The dispatch as a whole *)

Lemma try_order_nil dp : try_order dp [] = [].
Proof. unfold try_order; destruct dp as [d|]; cbn; [|reflexivity].
  now rewrite andb_false_r. Qed.

Lemma _send_notification_spec env message w :
  exists w',
    _send_notification env message w
    = (Ret (dispatch_ok env w message), w') /\
    sent w' = sent w
              ++ calls env (self w) message
                   (attempted
                      (attempt_ok env (self w) (List.length (dispatched w))
                                  message)
                      (try_order (get_default_ext_notify env)
                                 (get_available_notifiers env))) /\
    dispatched w' = dispatched w ++ [message] /\
    router_frame env w w'.
Proof.
  destruct w as [s tk dl sl].
  unfold _send_notification, dispatch_ok. run_m.
  destruct (get_available_notifiers env) as [|a av] eqn:Av.
  - rewrite try_order_nil. cbn. eexists; split; [reflexivity|].
    cbn. rewrite app_nil_r. repeat split.
  - destruct (send_loop_spec env (List.length dl) message
                (try_order (get_default_ext_notify env) (a :: av))
                (mkWorld s tk (dl ++ [message]) sl))
      as (w' & E & S' & D' & F').
    exists w'. cbn in *. repeat split; try assumption; apply F'.
Qed.

(** A dispatch never raises and touches neither the state machine's
    fields nor the clock. *)
Lemma _send_notification_frame env message w :
  exists b w',
    _send_notification env message w = (Ret b, w') /\
    same_core (self w) (self w') /\
    ticks w' = ticks w /\
    dispatched w' = dispatched w ++ [message].
Proof.
  destruct (_send_notification_spec env message w) as (w' & E & _ & D & F).
  exists (dispatch_ok env w message), w'.
  destruct F as (C & T & _). auto.
Qed.

(** ** The internal transitions *)

#[local] Arguments _send_notification : simpl never.
#[local] Arguments start_message : simpl never.
#[local] Arguments stop_message : simpl never.
#[local] Arguments update_message : simpl never.
#[local] Arguments timeout_message : simpl never.

Lemma _internal_stop_spec env string_info w :
  exists w',
    _internal_stop env string_info w = (Ret true, w') /\
    same_core (set_is_running false (self w)) (self w') /\
    ticks w' = S (ticks w) /\
    dispatched w'
    = dispatched w ++ [stop_message env string_info (now_at env (ticks w))].
Proof.
  destruct w as [s tk dl sl]. unfold _internal_stop. run_m.
  match goal with |- context [_send_notification env ?m ?w0] =>
    destruct (_send_notification_frame env m w0) as (b & w' & E & C & T & D)
  end.
  rewrite E. exists w'. cbn in *. auto.
Qed.

Lemma _internal_start_spec env timeout_ms string_info w :
  exists w',
    _internal_start env timeout_ms string_info w = (Ret true, w') /\
    same_core
      (set_is_timeout_occurred false
         (set_is_running true
            (set_last_feed_time (Some (now_at env (ticks w)))
               (set_start_info string_info
                  (set_timeout_ms timeout_ms (self w))))))
      (self w') /\
    ticks w' = S (S (ticks w)) /\
    dispatched w'
    = dispatched w
      ++ [start_message env timeout_ms string_info (now_at env (S (ticks w)))].
Proof.
  destruct w as [s tk dl sl]. unfold _internal_start. run_m.
  match goal with |- context [_send_notification env ?m ?w0] =>
    destruct (_send_notification_frame env m w0) as (b & w' & E & C & T & D)
  end.
  rewrite E. exists w'. cbn in *. auto.
Qed.

Lemma _update_timeout_spec env timeout_ms string_info w :
  exists w',
    _update_timeout env timeout_ms string_info w = (Ret true, w') /\
    same_core (set_timeout_ms timeout_ms (self w)) (self w') /\
    ticks w' = S (ticks w) /\
    dispatched w'
    = dispatched w
      ++ [update_message env (_timeout_ms (self w)) timeout_ms string_info
            (now_at env (ticks w))].
Proof.
  destruct w as [s tk dl sl]. unfold _update_timeout. run_m.
  match goal with |- context [_send_notification env ?m ?w0] =>
    destruct (_send_notification_frame env m w0) as (b & w' & E & C & T & D)
  end.
  rewrite E. exists w'. cbn in *. auto.
Qed.

(** ** The public methods *)

#[local] Arguments _internal_start : simpl never.
#[local] Arguments _internal_stop : simpl never.
#[local] Arguments _update_timeout : simpl never.

Lemma feed_idle_spec env timeout_ms string_info w :
  _is_running (self w) = false ->
  exists w',
    feed env timeout_ms string_info w = (Ret true, w') /\
    same_core
      (set_is_timeout_occurred false
         (set_is_running true
            (set_last_feed_time (Some (now_at env (ticks w)))
               (set_start_info string_info
                  (set_timeout_ms
                     (match timeout_ms with Some t => t | None => 30000 end)
                     (self w))))))
      (self w').
Proof.
  intros R. unfold feed.
  rewrite (bind_Ret get_self _ w (self w) w eq_refl), R. cbn [negb].
  destruct (_internal_start_spec env
              (match timeout_ms with Some t => t | None => 30000 end)
              string_info w) as (w' & E & C & _).
  exists w'. auto.
Qed.

Lemma feed_running_spec env timeout_ms string_info w :
  _is_running (self w) = true ->
  exists w',
    feed env timeout_ms string_info w = (Ret true, w') /\
    same_core
      (let s := set_is_timeout_occurred false
                  (set_last_feed_time (Some (now_at env (ticks w))) (self w)) in
       match timeout_ms with
       | Some x => set_timeout_ms x s
       | None => s
       end)
      (self w').
Proof.
  intros R. destruct w as [s tk dl sl]. cbn in R.
  unfold feed. run_m. rewrite R. run_m.
  destruct timeout_ms as [x|]; run_m.
  - match goal with |- context [_update_timeout env x ?i ?w0] =>
      destruct (_update_timeout_spec env x i w0) as (w' & E & C & _)
    end.
    rewrite E. exists w'. auto.
  - eexists; split; [reflexivity|]. apply same_core_refl.
Qed.

Lemma poll_idle env w :
  _is_running (self w) = false -> poll env w = (Ret false, w).
Proof.
  intros R. unfold poll.
  rewrite (bind_Ret get_self _ w (self w) w eq_refl), R. reflexivity.
Qed.

Lemma poll_running env w last :
  _is_running (self w) = true ->
  _last_feed_time (self w) = Some last ->
  let detected :=
    is_timeout (now_at env (ticks w)) last (_timeout_ms (self w))
    && negb (_is_timeout_occurred (self w)) in
  poll env w
  = (Ret detected,
     mkWorld (if detected then set_is_timeout_occurred true (self w)
              else self w)
             (S (ticks w)) (dispatched w) (sent w)).
Proof.
  intros R L. destruct w as [s tk dl sl]. cbn in *.
  unfold poll. run_m. rewrite R, L. run_m.
  destruct (is_timeout (now_at env tk) last (_timeout_ms s)
            && negb (_is_timeout_occurred s)); reflexivity.
Qed.

Lemma notify_idle env w :
  _is_running (self w) = false -> notify env w = (Ret false, w).
Proof.
  intros R. unfold notify.
  rewrite (bind_Ret get_self _ w (self w) w eq_refl), R. reflexivity.
Qed.

Lemma notify_running_spec env w :
  _is_running (self w) = true ->
  exists b w1 w',
    _send_notification env (notify_alert env w) (notify_world w)
    = (Ret b, w1) /\
    b = dispatch_ok env w (notify_alert env w) /\
    _internal_stop env "Timeout occurred" w1 = (Ret true, w') /\
    notify env w = (Ret b, w') /\
    same_core (set_is_running false (self w)) (self w') /\
    dispatched w'
    = dispatched w
      ++ [notify_alert env w;
          stop_message env "Timeout occurred" (now_at env (ticks w1))].
Proof.
  intros R.
  destruct (_send_notification_spec env (notify_alert env w) (notify_world w))
    as (w1 & E1 & _ & D1 & F1).
  destruct (_internal_stop_spec env "Timeout occurred" w1)
    as (w' & E2 & C2 & _ & D2).
  exists (dispatch_ok env (notify_world w) (notify_alert env w)), w1, w'.
  assert (NW : self (notify_world w) = self w
               /\ dispatched (notify_world w) = dispatched w).
  { unfold notify_world; destruct (_last_feed_time (self w)); split;
      reflexivity. }
  destruct NW as (NS & ND).
  split; [exact E1|]. split.
  { unfold dispatch_ok; now rewrite NS, ND. }
  split; [exact E2|]. split; [|split].
  - revert E1. unfold notify, notify_alert, notify_world.
    destruct w as [s tk dl sl]. cbn in R. run_m. rewrite R. cbn [negb].
    destruct (_last_feed_time s) as [last|]; run_m;
      unfold advance; cbn; intros E1; rewrite E1, E2; reflexivity.
  - destruct F1 as (C1 & _). rewrite NS in C1.
    eapply same_core_trans; [|exact C2].
    unfold same_core in *; cbn; intuition.
  - rewrite D2, D1, ND, <- app_assoc. reflexivity.
Qed.

Lemma manual_stop_idle env string_info w :
  _is_running (self w) = false ->
  manual_stop env string_info w = (Ret false, w).
Proof.
  intros R. unfold manual_stop.
  rewrite (bind_Ret get_self _ w (self w) w eq_refl), R. reflexivity.
Qed.

Lemma manual_stop_running_spec env string_info w :
  _is_running (self w) = true ->
  exists w',
    manual_stop env string_info w = (Ret true, w') /\
    same_core (set_is_running false (self w)) (self w') /\
    dispatched w'
    = dispatched w
      ++ [stop_message env (fstring ["Manual stop - "; string_info])
            (now_at env (ticks w))].
Proof.
  intros R. unfold manual_stop.
  rewrite (bind_Ret get_self _ w (self w) w eq_refl), R. cbn [negb].
  destruct (_internal_stop_spec env (fstring ["Manual stop - "; string_info]) w)
    as (w' & E & C & _ & D).
  exists w'. rewrite (bind_Ret _ _ _ _ _ E). auto.
Qed.

(** * The state machine's invariants *)

(** ** Last feed time of a running watchdog *)

Lemma run_call_keeps_last_feed env c w :
  (_is_running (self w) = true -> _last_feed_time (self w) <> None) ->
  _is_running (self (snd (run_call env c w))) = true ->
  _last_feed_time (self (snd (run_call env c w))) <> None.
Proof.
  intros Inv. destruct (_is_running (self w)) eqn:R.
  - specialize (Inv eq_refl).
    destruct (_last_feed_time (self w)) as [last|] eqn:L; [|congruence].
    destruct c as [tm info| | |info]; cbn [run_call].
    + destruct (feed_running_spec env tm info w R) as (w' & E & C).
      rewrite E; cbn [snd]. destruct C as (_ & _ & _ & CL & _).
      rewrite CL. destruct tm; cbn; discriminate.
    + rewrite (poll_running env w last R L); cbn [snd self].
      intros _. destruct (_ && _); cbn; congruence.
    + destruct (notify_running_spec env w R)
        as (b & w1 & w' & _ & _ & _ & E & C & _).
      rewrite E; cbn [snd]. destruct C as (CR & _).
      rewrite CR; cbn. discriminate.
    + destruct (manual_stop_running_spec env info w R) as (w' & E & C & _).
      rewrite E; cbn [snd]. destruct C as (CR & _).
      rewrite CR; cbn. discriminate.
  - destruct c as [tm info| | |info]; cbn [run_call].
    + destruct (feed_idle_spec env tm info w R) as (w' & E & C).
      rewrite E; cbn [snd]. destruct C as (_ & _ & _ & CL & _).
      rewrite CL; cbn. discriminate.
    + rewrite (poll_idle env w R); cbn [snd]. congruence.
    + rewrite (notify_idle env w R); cbn [snd]. congruence.
    + rewrite (manual_stop_idle env info w R); cbn [snd]. congruence.
Qed.

Lemma reachable_last_feed w :
  reachable w ->
  _is_running (self w) = true -> _last_feed_time (self w) <> None.
Proof.
  induction 1 as [|env c w _ IH]; [discriminate|].
  now apply run_call_keeps_last_feed.
Qed.

(** C9.  In every world a watchdog can reach, a running watchdog has a
    last feed time.  So the branch of [poll] that returns true because
    [_last_feed_time] is [None] is never taken: the result of [poll] on a
    running watchdog is always the one of the comparison of the elapsed
    time with the threshold. *)
Theorem running_has_last_feed_time w :
  reachable w ->
  _is_running (self w) = true ->
  exists last,
    _last_feed_time (self w) = Some last /\
    forall env,
      fst (poll env w)
      = Ret (is_timeout (now_at env (ticks w)) last (_timeout_ms (self w))
             && negb (_is_timeout_occurred (self w))).
Proof.
  intros Hr R. pose proof (reachable_last_feed w Hr R) as L.
  destruct (_last_feed_time (self w)) as [last|] eqn:E; [|congruence].
  exists last. split; [reflexivity|].
  intros env. now rewrite (poll_running env w last R E).
Qed.

(** ** The timeout flag across the calls *)

(** C1, as amended.  The timeout flag is cleared by every [feed], arming
    included; [notify] and [manual_stop], the calls that take the watchdog
    to Idle, leave the flag as it was, and so does [poll] on an idle
    watchdog. *)
Theorem timeout_flag_after_call env c w :
  let w' := snd (run_call env c w) in
  match c with
  | Feed _ _ => _is_timeout_occurred (self w') = false
  | Poll =>
      if _is_running (self w) then True
      else _is_timeout_occurred (self w') = _is_timeout_occurred (self w)
  | Notify | ManualStop _ =>
      _is_timeout_occurred (self w') = _is_timeout_occurred (self w)
  end.
Proof.
  destruct (_is_running (self w)) eqn:R; destruct c as [tm info| | |info];
    cbn [run_call]; cbv zeta; try exact I.
  - destruct (feed_running_spec env tm info w R) as (w' & E & C).
    rewrite E; cbn [snd]. destruct C as (_ & CF & _).
    rewrite CF. now destruct tm.
  - destruct (notify_running_spec env w R)
      as (b & w1 & w' & _ & _ & _ & E & C & _).
    rewrite E; cbn [snd]. destruct C as (_ & CF & _). now rewrite CF.
  - destruct (manual_stop_running_spec env info w R) as (w' & E & C & _).
    rewrite E; cbn [snd]. destruct C as (_ & CF & _). now rewrite CF.
  - destruct (feed_idle_spec env tm info w R) as (w' & E & C).
    rewrite E; cbn [snd]. destruct C as (_ & CF & _). now rewrite CF.
  - now rewrite (poll_idle env w R).
  - now rewrite (notify_idle env w R).
  - now rewrite (manual_stop_idle env info w R).
Qed.

(** ** The elapsed time in binary64 *)

Local Open Scope Q_scope.

Lemma round_half_even_close x :
  inject_Z (round_half_even x) - x <= 1 # 2 /\
  x - inject_Z (round_half_even x) <= 1 # 2.
Proof.
  unfold round_half_even.
  pose proof (Qfloor_le x) as Hl. pose proof (Qlt_floor x) as Hu.
  rewrite inject_Z_plus in Hu. change (inject_Z 1) with 1 in Hu.
  destruct (x - inject_Z (Qfloor x) ?= 1 # 2) eqn:C.
  - apply Qeq_alt in C.
    destruct (Z.even (Qfloor x));
      [|rewrite inject_Z_plus; change (inject_Z 1) with 1]; lra.
  - apply Qlt_alt in C. lra.
  - apply Qgt_alt in C. rewrite inject_Z_plus.
    change (inject_Z 1) with 1. lra.
Qed.

Lemma pow2_pos e : 0 < 2 ^ e.
Proof. apply Qpower_0_lt. reflexivity. Qed.

Lemma pow2_plus a b : 2 ^ (a + b) == 2 ^ a * 2 ^ b.
Proof. apply Qpower_plus. discriminate. Qed.

Lemma pow2_inject k : (0 <= k)%Z -> 2 ^ k == inject_Z (2 ^ k).
Proof. intros H. now rewrite Zpower_Qpower. Qed.

Lemma floor_log2_le q : 0 < q -> 2 ^ floor_log2 q <= q.
Proof.
  intros Hq. unfold floor_log2.
  set (ln := Z.log2 (Qnum q)). set (ld := Z.log2 (Zpos (Qden q))).
  destruct (Qle_bool (2 ^ (ln - ld)) q) eqn:E; [now apply Qle_bool_iff|].
  assert (Hn : (0 < Qnum q)%Z).
  { destruct q as [n d]. unfold Qlt in Hq. cbn in *. lia. }
  destruct (Z.log2_spec (Qnum q) Hn) as (Hn1 & _).
  destruct (Z.log2_spec (Zpos (Qden q)) eq_refl) as (_ & Hd2).
  fold ln in Hn1. fold ld in Hd2.
  assert (Lln : (0 <= ln)%Z) by apply Z.log2_nonneg.
  assert (Lld : (0 <= ld)%Z) by apply Z.log2_nonneg.
  replace (ln - ld - 1)%Z with (ln + - (Z.succ ld))%Z by lia.
  rewrite pow2_plus, Qpower_opp.
  rewrite (pow2_inject ln Lln), (pow2_inject (Z.succ ld)) by lia.
  set (A := (2 ^ ln)%Z) in *. set (B := (2 ^ Z.succ ld)%Z) in *.
  assert (HB : (0 < B)%Z) by lia.
  assert (HA : (0 < A)%Z) by (apply Z.pow_pos_nonneg; lia).
  destruct q as [n d]. cbn [Qnum Qden] in *.
  apply Qle_shift_div_r; [unfold Qlt; cbn; lia|].
  unfold Qle, Qmult, inject_Z; cbn. nia.
Qed.

Lemma floor_log2_lt q : 0 < q -> q < 2 ^ (floor_log2 q + 1).
Proof.
  intros Hq. unfold floor_log2.
  set (ln := Z.log2 (Qnum q)). set (ld := Z.log2 (Zpos (Qden q))).
  destruct (Qle_bool (2 ^ (ln - ld)) q) eqn:E.
  - assert (Hn : (0 < Qnum q)%Z).
    { destruct q as [n d]. unfold Qlt in Hq. cbn in *. lia. }
    destruct (Z.log2_spec (Qnum q) Hn) as (_ & Hn2).
    destruct (Z.log2_spec (Zpos (Qden q)) eq_refl) as (Hd1 & _).
    fold ln in Hn2. fold ld in Hd1.
    assert (Lln : (0 <= ln)%Z) by apply Z.log2_nonneg.
    assert (Lld : (0 <= ld)%Z) by apply Z.log2_nonneg.
    replace (ln - ld + 1)%Z with (Z.succ ln + - ld)%Z by lia.
    rewrite pow2_plus, Qpower_opp.
    rewrite (pow2_inject (Z.succ ln)), (pow2_inject ld Lld) by lia.
    set (A := (2 ^ Z.succ ln)%Z) in *. set (B := (2 ^ ld)%Z) in *.
    assert (HB : (0 < B)%Z) by (apply Z.pow_pos_nonneg; lia).
    destruct q as [n d]. cbn [Qnum Qden] in *.
    apply Qlt_shift_div_l; [unfold Qlt; cbn; lia|].
    unfold Qlt, Qmult, inject_Z; cbn. nia.
  - replace (ln - ld - 1 + 1)%Z with (ln - ld)%Z by lia.
    apply Qnot_le_lt. intros C. apply Qle_bool_iff in C. congruence.
Qed.

(** The mantissa of the rounded number has 53 bits (or is 2 ** 53, the
    next power of two): the number is a binary64 number. *)
Lemma mantissa_53_bits q :
  0 < q ->
  (2 ^ 52 <= round_half_even (q * 2 ^ (- (floor_log2 q - 52))) <= 2 ^ 53)%Z.
Proof.
  intros Hq.
  pose proof (floor_log2_le q Hq) as HL.
  pose proof (floor_log2_lt q Hq) as HU.
  set (e := (floor_log2 q - 52)%Z) in *.
  replace (floor_log2 q + 1)%Z with (53 + e)%Z in HU by (unfold e; lia).
  replace (floor_log2 q) with (52 + e)%Z in HL by (unfold e; lia).
  rewrite pow2_plus in HL, HU.
  pose proof (pow2_pos e) as HP. pose proof (pow2_pos (- e)) as HPi.
  assert (HPP : 2 ^ e * 2 ^ (- e) == 1).
  { rewrite <- pow2_plus. now replace (e + - e)%Z with 0%Z by lia. }
  destruct (round_half_even_close (q * 2 ^ (- e))) as (H1 & H2).
  set (m := round_half_even (q * 2 ^ (- e))) in *.
  set (P := 2 ^ e) in *. set (Pi := 2 ^ (- e)) in *.
  change (2 ^ 52) with (4503599627370496 # 1) in HL.
  change (2 ^ 53) with (9007199254740992 # 1) in HU.
  assert (Hx : 4503599627370496 # 1 <= q * Pi) by nra.
  assert (Hy : q * Pi < 9007199254740992 # 1) by nra.
  assert (A : inject_Z 4503599627370495 < inject_Z m)
    by (change (inject_Z 4503599627370495) with 4503599627370495; lra).
  assert (B : inject_Z m < inject_Z 9007199254740993)
    by (change (inject_Z 9007199254740993) with 9007199254740993; lra).
  rewrite <- Zlt_Qlt in A, B.
  change (2 ^ 52)%Z with 4503599627370496%Z.
  change (2 ^ 53)%Z with 9007199254740992%Z. lia.
Qed.

(** One rounding changes a positive number by at most the factor
    [1 - half_ulp] or [1 + half_ulp]. *)
Lemma round_binary64_pos_bounds q :
  0 < q ->
  q * (1 - half_ulp) <= round_binary64_pos q /\
  round_binary64_pos q <= q * (1 + half_ulp).
Proof.
  intros Hq. unfold round_binary64_pos.
  pose proof (floor_log2_le q Hq) as HL.
  set (e := (floor_log2 q - 52)%Z) in *.
  replace (floor_log2 q) with (52 + e)%Z in HL by (unfold e; lia).
  rewrite pow2_plus in HL.
  pose proof (pow2_pos e) as HP. pose proof (pow2_pos (- e)) as HPi.
  assert (HPP : 2 ^ e * 2 ^ (- e) == 1).
  { rewrite <- pow2_plus. now replace (e + - e)%Z with 0%Z by lia. }
  destruct (round_half_even_close (q * 2 ^ (- e))) as (H1 & H2).
  set (m := inject_Z (round_half_even (q * 2 ^ (- e)))) in *.
  set (P := 2 ^ e) in *. set (Pi := 2 ^ (- e)) in *.
  change (2 ^ 52) with (4503599627370496 # 1) in HL.
  unfold half_ulp.
  assert (Hx : 4503599627370496 # 1 <= q * Pi) by nra.
  split; nra.
Qed.

Lemma round_binary64_of_pos q :
  0 < q -> round_binary64 q = round_binary64_pos q.
Proof.
  intros Hq. unfold round_binary64. apply Qgt_alt in Hq. now rewrite Hq.
Qed.

Lemma elapsed_ms_zero now last :
  (now - last = 0)%Z -> elapsed_ms now last = 0.
Proof. intros H. unfold elapsed_ms, total_seconds. now rewrite H. Qed.

Lemma elapsed_ms_bounds now last :
  (0 < now - last)%Z ->
  let q := inject_Z (now - last) / 1000 in
  q * (1 - half_ulp) * (1 - half_ulp) <= elapsed_ms now last /\
  elapsed_ms now last <= q * (1 + half_ulp) * (1 + half_ulp).
Proof.
  intros Hx. cbv zeta. unfold elapsed_ms, total_seconds.
  set (x := (now - last)%Z) in *.
  assert (Hq : 0 < x # 1000000) by (unfold Qlt; cbn; lia).
  rewrite (round_binary64_of_pos _ Hq).
  destruct (round_binary64_pos_bounds _ Hq) as (L1 & U1).
  set (s := round_binary64_pos (x # 1000000)) in *.
  assert (Hx' : 0 < inject_Z x)
    by (change 0 with (inject_Z 0); rewrite <- Zlt_Qlt; exact Hx).
  assert (E : x # 1000000 == inject_Z x / 1000000) by apply Qmake_Qdiv.
  rewrite E in L1, U1. unfold half_ulp in *.
  assert (Hs : 0 < s * 1000) by lra.
  rewrite (round_binary64_of_pos _ Hs).
  destruct (round_binary64_pos_bounds _ Hs) as (L2 & U2). unfold half_ulp in *.
  set (y := round_binary64_pos (s * 1000)) in *.
  clearbody s y. clear E Hq Hs. revert L1 U1 L2 U2 Hx'.
  generalize (inject_Z x). intros X L1 U1 L2 U2 HX.
  unfold Qdiv in *. change (/ 1000000) with (1 # 1000000) in *.
  change (/ 1000) with (1 # 1000).
  split; lra.
Qed.

Lemma is_timeout_above now last timeout_ms :
  (0 <= now - last < 2 ^ 52)%Z ->
  (1000 * timeout_ms < now - last)%Z ->
  is_timeout now last timeout_ms = true.
Proof.
  intros (H0 & H1) HT. unfold is_timeout.
  apply negb_true_iff, not_true_is_false. intros C. apply Qle_bool_iff in C.
  destruct (Z.eq_dec (now - last) 0) as [Z0|NZ].
  - rewrite (elapsed_ms_zero _ _ Z0) in C.
    change 0 with (inject_Z 0) in C. rewrite <- Zle_Qle in C. lia.
  - destruct (elapsed_ms_bounds now last ltac:(lia)) as (L & _).
    set (x := (now - last)%Z) in *. set (y := elapsed_ms now last) in *.
    assert (A : inject_Z (1000 * timeout_ms + 1) <= inject_Z x)
      by (rewrite <- Zle_Qle; lia).
    assert (B : inject_Z x <= inject_Z (2 ^ 52 - 1))
      by (rewrite <- Zle_Qle; lia).
    rewrite inject_Z_plus, inject_Z_mult in A.
    change (inject_Z 1000) with 1000 in A. change (inject_Z 1) with 1 in A.
    change (inject_Z (2 ^ 52 - 1)) with 4503599627370495 in B.
    unfold half_ulp, Qdiv in L. change (/ 1000) with (1 # 1000) in L.
    clearbody y. revert C L A B.
    generalize (inject_Z x), (inject_Z timeout_ms). intros X T C L A B.
    lra.
Qed.

Lemma is_timeout_below now last timeout_ms :
  (0 <= now - last < 2 ^ 52)%Z ->
  (now - last < 1000 * timeout_ms)%Z ->
  is_timeout now last timeout_ms = false.
Proof.
  intros (H0 & H1) HT. unfold is_timeout.
  apply negb_false_iff, Qle_bool_iff.
  destruct (Z.eq_dec (now - last) 0) as [Z0|NZ].
  - rewrite (elapsed_ms_zero _ _ Z0).
    change 0 with (inject_Z 0). rewrite <- Zle_Qle. lia.
  - destruct (elapsed_ms_bounds now last ltac:(lia)) as (_ & U).
    set (x := (now - last)%Z) in *. set (y := elapsed_ms now last) in *.
    assert (A : inject_Z x + 1 <= inject_Z (1000 * timeout_ms)).
    { change 1 with (inject_Z 1). rewrite <- inject_Z_plus, <- Zle_Qle. lia. }
    assert (B : inject_Z x <= inject_Z (2 ^ 52 - 1))
      by (rewrite <- Zle_Qle; lia).
    assert (P : 0 < inject_Z x)
      by (change 0 with (inject_Z 0); rewrite <- Zlt_Qlt; lia).
    rewrite inject_Z_mult in A. change (inject_Z 1000) with 1000 in A.
    change (inject_Z (2 ^ 52 - 1)) with 4503599627370495 in B.
    unfold half_ulp, Qdiv in U. change (/ 1000) with (1 # 1000) in U.
    clearbody y. revert U A B P.
    generalize (inject_Z x), (inject_Z timeout_ms). intros X T U A B P.
    lra.
Qed.

Local Close Scope Q_scope.

(** ** One detection per timeout episode *)






(** * The calls one by one *)

(** C7.  [feed()] without a timeout on an idle watchdog arms it: it runs,
    the threshold is 30000 ms, the last feed time is the reading of the
    clock, the timeout flag is clear, and the call returns true, whatever
    becomes of the start alert. *)
Theorem feed_arms_idle_watchdog env string_info w :
  _is_running (self w) = false ->
  exists w',
    feed env None string_info w = (Ret true, w') /\
    is_running w' = true /\
    current_timeout_ms w' = 30000 /\
    _last_feed_time (self w') = Some (now_at env (ticks w)) /\
    timeout_occurred w' = false.
Proof.
  intros R.
  destruct (feed_idle_spec env None string_info w R)
    as (w' & E & CR & CF & CT & CL & _).
  exists w'. unfold is_running, timeout_occurred, current_timeout_ms.
  rewrite CR, CF, CT, CL. repeat split; assumption.
Qed.

(** C6.  [feed(timeout_ms=x)] on a running watchdog sets the threshold to
    [x], restarts the timer at the reading of the clock, clears the
    timeout flag and returns true; the watchdog goes on running. *)
Theorem feed_updates_running_watchdog env x string_info w :
  _is_running (self w) = true ->
  exists w',
    feed env (Some x) string_info w = (Ret true, w') /\
    current_timeout_ms w' = x /\
    _last_feed_time (self w') = Some (now_at env (ticks w)) /\
    timeout_occurred w' = false /\
    is_running w' = true.
Proof.
  intros R.
  destruct (feed_running_spec env (Some x) string_info w R)
    as (w' & E & CR & CF & CT & CL & _).
  exists w'. unfold is_running, timeout_occurred, current_timeout_ms.
  rewrite CR, CF, CT, CL. cbn. repeat split; assumption.
Qed.

(** C8.  [manual_stop] on an idle watchdog returns false and leaves the
    world as it is: no field changes, nothing is dispatched or sent.  On a
    running watchdog it returns true and the watchdog is idle afterwards,
    whatever the environment makes of the stop alert. *)
Theorem manual_stop_cases env string_info w :
  (_is_running (self w) = false ->
   manual_stop env string_info w = (Ret false, w)) /\
  (_is_running (self w) = true ->
   exists w',
     manual_stop env string_info w = (Ret true, w') /\
     is_running w' = false).
Proof.
  split; intros R.
  - now apply manual_stop_idle.
  - destruct (manual_stop_running_spec env string_info w R)
      as (w' & E & (CR & _) & _).
    exists w'. split; [exact E|]. unfold is_running. now rewrite CR.
Qed.

(** C3.  [notify] on a running watchdog dispatches the timeout alert and
    returns what that dispatch returned; in either case the watchdog is
    idle afterwards.  On an idle watchdog it returns false and changes
    nothing. *)
Theorem notify_stops_and_reports env w :
  (_is_running (self w) = true ->
   exists b w1 w',
     _send_notification env (notify_alert env w) (notify_world w)
     = (Ret b, w1) /\
     notify env w = (Ret b, w') /\
     is_running w' = false) /\
  (_is_running (self w) = false -> notify env w = (Ret false, w)).
Proof.
  split; intros R.
  - destruct (notify_running_spec env w R)
      as (b & w1 & w' & E1 & _ & _ & E & (CR & _) & _).
    exists b, w1, w'. repeat split; assumption.
  - now apply notify_idle.
Qed.

(** ** The two dispatches of [notify] *)

Lemma prefix_append s t : String.prefix s (String.append s t) = true.
Proof.
  induction s as [|a s IH]; cbn; [now destruct t|].
  destruct (ascii_dec a a); [exact IH | congruence].
Qed.

Lemma dispatch_ok_with_send_message env f w message :
  (forall n m, f (List.length (dispatched w)) n m
               = send_message env (List.length (dispatched w)) n m) ->
  dispatch_ok (with_send_message env f) w message = dispatch_ok env w message.
Proof.
  intros H. unfold dispatch_ok. cbn [with_send_message
    get_default_ext_notify get_available_notifiers].
  apply existsb_pointwise. intros p. unfold attempt_ok.
  change (notifier_for (with_send_message env f) (self w) p)
    with (notifier_for env (self w) p).
  destruct (notifier_for env (self w) p) as [n|]; [|reflexivity].
  cbn [with_send_message send_message]. now rewrite H.
Qed.

(** C10.  One call of [notify] on a running watchdog enters
    [_send_notification] twice: first with the timeout alert, then, from
    [_internal_stop], with the auto-stop alert.  The value returned is the
    result of the first dispatch; it is the same under any behaviour of the
    notifiers during the second. *)
Theorem notify_dispatches_twice env w :
  _is_running (self w) = true ->
  exists b w1 w' alert stopped,
    _send_notification env alert (notify_world w) = (Ret b, w1) /\
    _internal_stop env "Timeout occurred" w1 = (Ret true, w') /\
    notify env w = (Ret b, w') /\
    dispatched w' = dispatched w ++ [alert; stopped] /\
    String.prefix "[WATCHDOG] Timeout Alert!" alert = true /\
    String.prefix "[WATCHDOG] Auto-Stopped" stopped = true /\
    forall f,
      (forall n m, f (List.length (dispatched w)) n m
                   = send_message env (List.length (dispatched w)) n m) ->
      fst (notify (with_send_message env f) w) = Ret b.
Proof.
  intros R.
  destruct (notify_running_spec env w R)
    as (b & w1 & w' & E1 & Hb & Es & E & _ & D).
  exists b, w1, w', (notify_alert env w),
    (stop_message env "Timeout occurred" (now_at env (ticks w1))).
  split; [exact E1|]. split; [exact Es|].
  split; [exact E|]. split; [exact D|].
  split; [|split].
  - unfold notify_alert, timeout_message.
    destruct (_last_feed_time (self w)); apply prefix_append.
  - apply prefix_append.
  - intros f Hf.
    destruct (notify_running_spec (with_send_message env f) w R)
      as (b2 & w2 & w2' & _ & Hb2 & _ & E2 & _).
    rewrite E2, Hb2, Hb. cbn [fst]. f_equal.
    change (notify_alert (with_send_message env f) w)
      with (notify_alert env w).
    now apply dispatch_ok_with_send_message.
Qed.

(** * The router *)

Lemma calls_length env s message l :
  (forall q, In q l -> notifier_for env s q <> None) ->
  List.length (calls env s message l) = List.length l.
Proof.
  induction l as [|p r IH]; intros H; [reflexivity|].
  unfold calls in *. cbn [flat_map]. rewrite length_app, IH.
  - destruct (notifier_for env s p) eqn:E; [reflexivity|].
    exfalso. apply (H p); cbn; auto.
  - intros q Hq; apply H; cbn; auto.
Qed.

(** C4.  A dispatch goes through the try order: the default platform if
    it is set and enabled, then the enabled platforms not yet in the
    order, as enumerated, each once.  If the platform at position [k]
    (counted from 0) is the first whose attempt succeeds, the dispatch
    returns true and has made the attempts on the first [k + 1] platforms
    and no other: [send_message] was called for those of them that have a
    notifier, [k + 1] calls when all have.  If every attempt fails the
    dispatch returns false after the attempts on all platforms, and with
    no platform enabled it returns false without any call. *)
Theorem dispatch_follows_try_order env message w :
  let dp := get_default_ext_notify env in
  let av := get_available_notifiers env in
  let order := try_order dp av in
  let ok := attempt_ok env (self w) (List.length (dispatched w)) message in
  order = order_start dp av ++ dedup (order_start dp av) av /\
  (NoDup av ->
   order = order_start dp av
           ++ filter (fun p => negb (str_in p (order_start dp av))) av) /\
  NoDup order /\
  (forall p, In p order <-> In p av) /\
  (forall k p,
     nth_error order k = Some p ->
     ok p = true ->
     (forall q, In q (firstn k order) -> ok q = false) ->
     exists w',
       _send_notification env message w = (Ret true, w') /\
       sent w' = sent w ++ calls env (self w) message (firstn (S k) order) /\
       ((forall q, In q (firstn (S k) order) ->
                   notifier_for env (self w) q <> None) ->
        List.length (sent w') = (List.length (sent w) + S k)%nat)) /\
  ((forall q, In q order -> ok q = false) ->
   exists w',
     _send_notification env message w = (Ret false, w') /\
     sent w' = sent w ++ calls env (self w) message order) /\
  (av = [] ->
   exists w',
     _send_notification env message w = (Ret false, w') /\
     sent w' = sent w).
Proof.
  cbv zeta.
  destruct (_send_notification_spec env message w) as (w' & E & S' & _).
  unfold dispatch_ok in E.
  split; [apply try_order_eq|].
  split; [intros ND; rewrite try_order_eq; f_equal; now apply dedup_filter|].
  split; [apply try_order_NoDup|].
  split; [intros p; apply try_order_In|].
  split; [|split].
  - intros k p Hk Hp Hpre.
    destruct (attempted_first_success _ _ k p Hk Hp Hpre) as (A & X).
    rewrite X in E. rewrite A in S'.
    exists w'. split; [exact E|]. split; [exact S'|].
    intros Hn. rewrite S', length_app, (calls_length _ _ _ _ Hn).
    f_equal. apply firstn_length_le.
    assert (Hlt : (k < List.length
                     (try_order (get_default_ext_notify env)
                                (get_available_notifiers env)))%nat).
    { apply nth_error_Some. congruence. }
    lia.
  - intros Hall.
    destruct (attempted_all_fail _ _ Hall) as (A & X).
    rewrite X in E. rewrite A in S'. exists w'. auto.
  - intros Hav. rewrite Hav, try_order_nil in *.
    cbn in E, S'. rewrite app_nil_r in S'. exists w'. auto.
Qed.

(** C5.  A dispatch never raises.  When the [send_message] of a platform's
    notifier raises (the call itself ends in the exception), the attempt on
    that platform catches it and the loop goes on with the platforms
    left. *)
Theorem channel_fault_is_contained env message w :
  (exists b w', _send_notification env message w = (Ret b, w')) /\
  (forall d platform rest n e,
     notifier_for env (self w) platform = Some n ->
     send_message env d n message = Raised e ->
     fst (call_send_message env d n message w) = Exc e /\
     exists w1,
       try_platform env d message platform w = (Ret None, w1) /\
       sent w1 = sent w ++ [(n, message)] /\
       send_loop env d message (platform :: rest) w
       = send_loop env d message rest w1).
Proof.
  split.
  - destruct (_send_notification_spec env message w) as (w' & E & _).
    eauto.
  - intros d platform rest n e Hn Hs. split.
    + unfold call_send_message. now rewrite Hs.
    + destruct (try_platform_spec env d message platform w)
        as (w1 & E & S1 & _).
      unfold attempt_ok in E. rewrite Hn, Hs in E.
      unfold calls in S1. cbn [flat_map] in S1.
      rewrite Hn, app_nil_r in S1.
      exists w1. split; [exact E|]. split; [exact S1|].
      cbn [send_loop]. now rewrite (bind_Ret _ _ _ _ _ E).
Qed.


(** * The scenario *)

Lemma reachable_armed : reachable armed.
Proof. apply reachable_call, reachable_init. Qed.

Lemma reachable_signalled : reachable signalled.
Proof. do 2 apply reachable_call. apply reachable_armed. Qed.

Lemma reachable_stopped : reachable stopped.
Proof. apply reachable_call, reachable_signalled. Qed.

(** The scenario of the polls: 500 ms, 1100 ms, 1200 ms. *)
Example scenario_polls :
  fst (polls scenario_env 3 armed) = Ret [false; true; false].
Proof. reflexivity. Qed.

(** A feed at 1300 ms and more starts a new episode. *)
Example scenario_feed_then_poll :
  fst (poll scenario_env
         (snd (feed scenario_env None "" signalled))) = Ret false.
Proof. reflexivity. Qed.

Example scenario_try_order :
  try_order (Some "wechat") ["telegram"; "wechat"; "telegram"; "discord"]
  = ["wechat"; "telegram"; "discord"].
Proof. reflexivity. Qed.

(** At an elapsed time equal to the threshold the rounding decides:
    2007000 microseconds come out as 2007.0000000000002 ms, above 2007,
    while 1000000 microseconds come out as 1000 ms, not above 1000. *)
Example timeout_at_the_threshold :
  (elapsed_ms 2007000 0 == 8826879347785729 # 4398046511104)%Q /\
  is_timeout 2007000 0 2007 = true /\
  is_timeout 1000000 0 1000 = false.
Proof. split; [|split]; vm_compute; reflexivity. Qed.

(** C1 fails as stated: after a detected timeout and [notify] the watchdog
    is idle, reachable, and its timeout flag is still set. *)
Lemma idle_watchdog_with_timeout_flag :
  exists w,
    reachable w /\
    _is_running (self w) = false /\
    _is_timeout_occurred (self w) = true.
Proof.
  exists stopped. split; [apply reachable_stopped|]. split; reflexivity.
Qed.

Lemma running_has_last_feed_time_witness :
  reachable armed /\
  _is_running (self armed) = true /\
  exists last,
    _last_feed_time (self armed) = Some last /\
    forall env,
      fst (poll env armed)
      = Ret (is_timeout (now_at env (ticks armed)) last
                        (_timeout_ms (self armed))
             && negb (_is_timeout_occurred (self armed))).
Proof.
  split; [apply reachable_armed|]. split; [reflexivity|].
  apply (running_has_last_feed_time armed);
    [apply reachable_armed | reflexivity].
Defined.


Lemma feed_arms_idle_watchdog_witness :
  _is_running (self init_world) = false /\
  exists w',
    feed scenario_env None "job" init_world = (Ret true, w') /\
    is_running w' = true /\
    current_timeout_ms w' = 30000 /\
    _last_feed_time (self w') = Some (now_at scenario_env (ticks init_world)) /\
    timeout_occurred w' = false.
Proof.
  split; [reflexivity|].
  apply (feed_arms_idle_watchdog scenario_env "job" init_world).
  reflexivity.
Defined.

Lemma feed_updates_running_watchdog_witness :
  _is_running (self signalled) = true /\
  exists w',
    feed failing_env (Some 5000) "" signalled = (Ret true, w') /\
    current_timeout_ms w' = 5000 /\
    _last_feed_time (self w') = Some (now_at failing_env (ticks signalled)) /\
    timeout_occurred w' = false /\
    is_running w' = true.
Proof.
  split; [reflexivity|].
  apply (feed_updates_running_watchdog failing_env 5000 "" signalled).
  reflexivity.
Defined.

Lemma manual_stop_cases_witness :
  manual_stop scenario_env "bye" init_world = (Ret false, init_world) /\
  exists w',
    manual_stop failing_env "bye" armed = (Ret true, w') /\
    is_running w' = false.
Proof.
  split.
  - apply (proj1 (manual_stop_cases scenario_env "bye" init_world)).
    reflexivity.
  - apply (proj2 (manual_stop_cases failing_env "bye" armed)).
    reflexivity.
Defined.

Lemma notify_stops_and_reports_witness :
  (exists b w1 w',
     _send_notification failing_env (notify_alert failing_env signalled)
       (notify_world signalled) = (Ret b, w1) /\
     notify failing_env signalled = (Ret b, w') /\
     is_running w' = false) /\
  notify scenario_env init_world = (Ret false, init_world).
Proof.
  split.
  - apply (proj1 (notify_stops_and_reports failing_env signalled)).
    reflexivity.
  - apply (proj2 (notify_stops_and_reports scenario_env init_world)).
    reflexivity.
Defined.

(** In [late_env] the timeout alert is not delivered and the auto-stop
    alert is: [notify] returns false. *)
Example notify_ignores_second_dispatch :
  fst (notify late_env signalled) = Ret false /\
  dispatch_ok late_env
    (mkWorld (self signalled) 0 (dispatched signalled ++ ["alert"]) [])
    "stopped" = true.
Proof. split; reflexivity. Qed.

Lemma notify_dispatches_twice_witness :
  _is_running (self signalled) = true /\
  exists b w1 w' alert stopped,
    _send_notification late_env alert (notify_world signalled)
    = (Ret b, w1) /\
    _internal_stop late_env "Timeout occurred" w1 = (Ret true, w') /\
    notify late_env signalled = (Ret b, w') /\
    dispatched w' = dispatched signalled ++ [alert; stopped] /\
    String.prefix "[WATCHDOG] Timeout Alert!" alert = true /\
    String.prefix "[WATCHDOG] Auto-Stopped" stopped = true /\
    forall f,
      (forall n m, f (List.length (dispatched signalled)) n m
                   = send_message late_env
                       (List.length (dispatched signalled)) n m) ->
      fst (notify (with_send_message late_env f) signalled) = Ret b.
Proof.
  split; [reflexivity|].
  apply (notify_dispatches_twice late_env signalled). reflexivity.
Defined.

(** WeChat is the default and raises, Telegram comes second and delivers:
    two attempts, the dispatch returns true.  With notifiers that return
    false both are attempted and the dispatch returns false. *)
Lemma dispatch_follows_try_order_witness :
  (exists w',
     _send_notification scenario_env "ping" init_world = (Ret true, w') /\
     sent w' = [(WeChatWorkNotifier "key", "ping");
                (TelegramNotifier "token" "chat", "ping")] /\
     List.length (sent w') = 2%nat) /\
  (exists w',
     _send_notification failing_env "ping" init_world = (Ret false, w') /\
     sent w' = [(WeChatWorkNotifier "key", "ping");
                (TelegramNotifier "token" "chat", "ping")]) /\
  (exists w',
     _send_notification silent_env "ping" init_world = (Ret false, w') /\
     sent w' = []).
Proof.
  split; [|split].
  - destruct (dispatch_follows_try_order scenario_env "ping" init_world)
      as (_ & _ & _ & _ & H & _).
    destruct (H 1%nat "telegram" eq_refl eq_refl) as (w' & E & S' & L).
    { intros q [<-|[]]; reflexivity. }
    exists w'. split; [exact E|]. split; [exact S'|].
    apply L. intros q [<-|[<-|[]]]; discriminate.
  - destruct (dispatch_follows_try_order failing_env "ping" init_world)
      as (_ & _ & _ & _ & _ & H & _).
    apply H. intros q [<-|[<-|[]]]; reflexivity.
  - destruct (dispatch_follows_try_order silent_env "ping" init_world)
      as (_ & _ & _ & _ & _ & _ & H).
    apply H. reflexivity.
Defined.

Lemma channel_fault_is_contained_witness :
  (exists b w',
     _send_notification scenario_env "ping" init_world = (Ret b, w')) /\
  fst (call_send_message scenario_env 0 (WeChatWorkNotifier "key") "ping"
         init_world) = Exc "connection refused" /\
  exists w1,
    try_platform scenario_env 0 "ping" "wechat" init_world = (Ret None, w1) /\
    sent w1 = sent init_world ++ [(WeChatWorkNotifier "key", "ping")] /\
    send_loop scenario_env 0 "ping" ["wechat"; "telegram"] init_world
    = send_loop scenario_env 0 "ping" ["telegram"] w1.
Proof.
  destruct (channel_fault_is_contained scenario_env "ping" init_world)
    as (H1 & H2).
  split; [exact H1|].
  apply (H2 0%nat "wechat" ["telegram"] (WeChatWorkNotifier "key")
            "connection refused"); reflexivity.
Defined.

(** * Further properties of the watchdog *)

(** ** Notifier handles *)

Lemma handles_step_refl env s : handles_step env s s.
Proof. split; left; reflexivity. Qed.

Lemma handles_step_trans env s1 s2 s3 :
  handles_step env s1 s2 -> handles_step env s2 s3 -> handles_step env s1 s3.
Proof.
  intros (T1 & W1) (T2 & W2). split.
  - destruct T1 as [T1|(N1 & C1 & E1)], T2 as [T2|(N2 & C2 & E2)].
    + left; congruence.
    + right; repeat split; congruence.
    + right; repeat split; congruence.
    + congruence.
  - destruct W1 as [W1|(N1 & C1 & E1)], W2 as [W2|(N2 & C2 & E2)].
    + left; congruence.
    + right; repeat split; congruence.
    + right; repeat split; congruence.
    + congruence.
Qed.

Lemma keeps_ret env {A} (a : A) : keeps_handles env (ret a).
Proof. intros w; apply handles_step_refl. Qed.

Lemma keeps_bind env {A B} (m : M A) (k : A -> M B) :
  keeps_handles env m -> (forall a, keeps_handles env (k a)) ->
  keeps_handles env (bind m k).
Proof.
  intros Hm Hk w. unfold bind. specialize (Hm w).
  destruct (m w) as [[a|e] w1]; cbn [snd] in *; [|exact Hm].
  eapply handles_step_trans; [exact Hm | apply Hk].
Qed.

Lemma keeps_try_except env {A} (m : M A) (h : string -> M A) :
  keeps_handles env m -> (forall e, keeps_handles env (h e)) ->
  keeps_handles env (try_except m h).
Proof.
  intros Hm Hh w. unfold try_except. specialize (Hm w).
  destruct (m w) as [[a|e] w1]; cbn [snd] in *; [exact Hm|].
  eapply handles_step_trans; [exact Hm | apply Hh].
Qed.

Lemma keeps_get_self env : keeps_handles env get_self.
Proof. intros w; apply handles_step_refl. Qed.

Lemma keeps_datetime_now env : keeps_handles env (datetime_now env).
Proof. intros w; apply handles_step_refl. Qed.

Lemma keeps_enter_dispatch env message :
  keeps_handles env (enter_dispatch message).
Proof. intros w; apply handles_step_refl. Qed.

Lemma keeps_call_send_message env d n message :
  keeps_handles env (call_send_message env d n message).
Proof.
  intros w. unfold call_send_message.
  destruct (send_message env d n message); apply handles_step_refl.
Qed.

(** The setters of the state machine's fields leave the handles alone. *)
Lemma keeps_modify_self env (f : Watchdog -> Watchdog) :
  (forall s, _telegram_notifier (f s) = _telegram_notifier s) ->
  (forall s, _wechat_notifier (f s) = _wechat_notifier s) ->
  keeps_handles env (modify_self f).
Proof.
  intros Ht Hw w. unfold modify_self; cbn. split; left; auto.
Qed.

Lemma keeps_get_telegram_notifier env :
  keeps_handles env (_get_telegram_notifier env).
Proof.
  intros [s tk dl sl]. unfold _get_telegram_notifier. run_m.
  destruct (_telegram_notifier s) as [n|] eqn:Ec; run_m;
    [apply handles_step_refl|].
  destruct (get_telegram_config env) as [bot_token chat_id] eqn:Eg.
  destruct (truthy bot_token && truthy chat_id) eqn:Ey; run_m;
    [|apply handles_step_refl].
  split; [right|left; reflexivity].
  rewrite Eg; cbn. auto.
Qed.

Lemma keeps_get_wechat_notifier env :
  keeps_handles env (_get_wechat_notifier env).
Proof.
  intros [s tk dl sl]. unfold _get_wechat_notifier. run_m.
  destruct (_wechat_notifier s) as [n|] eqn:Ec; run_m;
    [apply handles_step_refl|].
  destruct (truthy (get_wechat_config env)) eqn:Ey; run_m;
    [|apply handles_step_refl].
  split; [left; reflexivity|right]. auto.
Qed.

Lemma keeps_try_platform env d message platform :
  keeps_handles env (try_platform env d message platform).
Proof.
  unfold try_platform. apply keeps_try_except; [|intros; apply keeps_ret].
  destruct (String.eqb platform "telegram");
    [|destruct (String.eqb platform "wechat")].
  - apply keeps_bind; [apply keeps_get_telegram_notifier|].
    intros [n|]; [|apply keeps_ret].
    apply keeps_bind; [apply keeps_call_send_message|].
    intros [|]; apply keeps_ret.
  - apply keeps_bind; [apply keeps_get_wechat_notifier|].
    intros [n|]; [|apply keeps_ret].
    apply keeps_bind; [apply keeps_call_send_message|].
    intros [|]; apply keeps_ret.
  - apply keeps_ret.
Qed.

Lemma keeps_send_loop env d message order :
  keeps_handles env (send_loop env d message order).
Proof.
  induction order as [|p rest IH]; cbn [send_loop]; [apply keeps_ret|].
  apply keeps_bind; [apply keeps_try_platform|].
  intros [b|]; [apply keeps_ret | exact IH].
Qed.

Lemma keeps_send_notification env message :
  keeps_handles env (_send_notification env message).
Proof.
  unfold _send_notification. apply keeps_bind; [apply keeps_enter_dispatch|].
  intros d. destruct (get_available_notifiers env);
    [apply keeps_ret | apply keeps_send_loop].
Qed.

(** Closes a goal [keeps_handles env m] for [m] built from the
    primitives, the setters and the router. *)
Ltac keeps :=
  repeat first
    [ apply keeps_ret
    | apply keeps_get_self
    | apply keeps_datetime_now
    | apply keeps_send_notification
    | apply keeps_modify_self; reflexivity
    | apply keeps_bind; [|intros ?] ].

Lemma keeps_internal_start env timeout_ms string_info :
  keeps_handles env (_internal_start env timeout_ms string_info).
Proof. unfold _internal_start. keeps. Qed.

Lemma keeps_internal_stop env string_info :
  keeps_handles env (_internal_stop env string_info).
Proof. unfold _internal_stop. keeps. Qed.

Lemma keeps_update_timeout env timeout_ms string_info :
  keeps_handles env (_update_timeout env timeout_ms string_info).
Proof. unfold _update_timeout. keeps. Qed.

Lemma keeps_run_call env c : keeps_handles env (run_call env c).
Proof.
  destruct c as [tm info| | |info]; cbn [run_call].
  - unfold feed. apply keeps_bind; [apply keeps_get_self|]. intros s.
    destruct (negb (_is_running s)); [apply keeps_internal_start|].
    keeps. destruct tm; keeps.
  - unfold poll. apply keeps_bind; [apply keeps_get_self|]. intros s.
    destruct (negb (_is_running s)); [apply keeps_ret|].
    destruct (_last_feed_time s); [|apply keeps_ret].
    keeps. destruct (_ && _); keeps.
  - unfold notify. apply keeps_bind; [apply keeps_get_self|]. intros s.
    destruct (negb (_is_running s)); [apply keeps_ret|].
    apply keeps_bind; [destruct (_last_feed_time s); keeps|]. intros el.
    keeps.
  - unfold manual_stop. apply keeps_bind; [apply keeps_get_self|]. intros s.
    destruct (negb (_is_running s)); [apply keeps_ret|].
    apply keeps_bind; [apply keeps_internal_stop|]. intros; keeps.
Qed.

(** X11.  A cached notifier handle survives every call, under any
    environment: the call neither drops nor replaces it.  While it is
    cached, the getter returns it without a look at the configuration and
    leaves the world as it is, and the attempt on its platform calls
    [send_message] on it. *)
Theorem cached_handle_is_kept env c w :
  (forall n, _telegram_notifier (self w) = Some n ->
     _telegram_notifier (self (snd (run_call env c w))) = Some n /\
     _get_telegram_notifier env w = (Ret (Some n), w) /\
     forall d message,
       sent (snd (try_platform env d message "telegram" w))
       = sent w ++ [(n, message)]) /\
  (forall n, _wechat_notifier (self w) = Some n ->
     _wechat_notifier (self (snd (run_call env c w))) = Some n /\
     _get_wechat_notifier env w = (Ret (Some n), w) /\
     forall d message,
       sent (snd (try_platform env d message "wechat" w))
       = sent w ++ [(n, message)]).
Proof.
  destruct (keeps_run_call env c w) as (T & W). split; intros n Hn.
  - split; [destruct T as [T|(N & _)]; congruence|]. split.
    + destruct w as [s tk dl sl]. cbn in Hn.
      unfold _get_telegram_notifier. run_m. now rewrite Hn.
    + intros d message.
      destruct (try_platform_spec env d message "telegram" w)
        as (w' & E & S' & _).
      rewrite E; cbn [snd]. rewrite S'. f_equal.
      unfold calls, notifier_for; cbn. now rewrite Hn.
  - split; [destruct W as [W|(N & _)]; congruence|]. split.
    + destruct w as [s tk dl sl]. cbn in Hn.
      unfold _get_wechat_notifier. run_m. now rewrite Hn.
    + intros d message.
      destruct (try_platform_spec env d message "wechat" w)
        as (w' & E & S' & _).
      rewrite E; cbn [snd]. rewrite S'. f_equal.
      unfold calls, notifier_for; cbn. now rewrite Hn.
Qed.

(** X12.  In every world a watchdog can reach, a cached handle is a
    Telegram notifier made of a non-empty token and a non-empty chat id,
    respectively a WeChat notifier made of a non-empty key: no handle is
    ever created from incomplete credentials. *)
Theorem reachable_handles_well_formed w :
  reachable w -> handles_well_formed (self w).
Proof.
  induction 1 as [|env c w _ (IHt & IHw)].
  - split; intros n Hn; discriminate.
  - destruct (keeps_run_call env c w) as (T & W). split; intros n Hn.
    + destruct T as [T|(_ & C & E)].
      * apply IHt. congruence.
      * rewrite E in Hn. inversion Hn; subst.
        apply andb_true_iff in C. destruct C. eauto.
    + destruct W as [W|(_ & C & E)].
      * apply IHw. congruence.
      * rewrite E in Hn. inversion Hn; subst. eauto.
Qed.

(** ** What a dispatch leaves alone *)

(** X10.  A dispatch returns a boolean, never an exception; it records its
    message, and changes neither a field of the state machine nor the
    clock; the handles step as [handles_step] says. *)
Theorem dispatch_leaves_state_machine env message w :
  exists b w',
    _send_notification env message w = (Ret b, w') /\
    same_core (self w) (self w') /\
    ticks w' = ticks w /\
    dispatched w' = dispatched w ++ [message] /\
    handles_step env (self w) (self w').
Proof.
  destruct (_send_notification_frame env message w)
    as (b & w' & E & C & T & D).
  pose proof (keeps_send_notification env message w) as K.
  rewrite E in K. cbn [snd] in K.
  exists b, w'. split; [exact E|]. split; [exact C|].
  split; [exact T|]. split; [exact D | exact K].
Qed.

Lemma attempted_In ok order x : In x (attempted ok order) -> In x order.
Proof.
  induction order as [|p rest IH]; cbn; [tauto|].
  destruct (ok p); cbn; intuition.
Qed.

Lemma attempted_NoDup ok order : NoDup order -> NoDup (attempted ok order).
Proof.
  induction 1 as [|p rest Hp ND IH]; cbn; [constructor|].
  destruct (ok p); [repeat constructor; cbn; tauto|].
  constructor; [|exact IH]. intros Hin. apply Hp.
  eapply attempted_In; eauto.
Qed.

Lemma calls_supported env s message l :
  (List.length (calls env s message l)
   <= List.length
        (filter (fun p => String.eqb p "telegram" || String.eqb p "wechat")
                l))%nat.
Proof.
  induction l as [|p rest IH]; [reflexivity|].
  unfold calls in *. cbn [flat_map filter]. rewrite length_app.
  unfold notifier_for at 1.
  destruct (String.eqb p "telegram"); cbn [orb].
  - destruct (match _telegram_notifier s with Some _ => _ | None => _ end);
      cbn [List.length]; lia.
  - destruct (String.eqb p "wechat").
    + destruct (match _wechat_notifier s with Some _ => _ | None => _ end);
        cbn [List.length]; lia.
    + cbn [List.length]; lia.
Qed.

(** X8.  One dispatch calls [send_message] at most twice, and at most as
    often as there are enabled platforms, however long the list of enabled
    platforms is and whatever names it holds. *)
Theorem dispatch_sends_at_most_twice env message w :
  let w' := snd (_send_notification env message w) in
  (List.length (sent w') <= List.length (sent w) + 2)%nat /\
  (List.length (sent w')
   <= List.length (sent w) + List.length (get_available_notifiers env))%nat.
Proof.
  cbv zeta.
  destruct (_send_notification_spec env message w) as (w' & E & S' & _).
  rewrite E; cbn [snd]. rewrite S', length_app.
  set (order := try_order (get_default_ext_notify env)
                          (get_available_notifiers env)) in *.
  set (ok := attempt_ok env (self w) (List.length (dispatched w)) message).
  assert (ND : NoDup (attempted ok order))
    by (apply attempted_NoDup, try_order_NoDup).
  pose proof (calls_supported env (self w) message (attempted ok order)) as L.
  split.
  - assert (L2 : (List.length
                    (filter (fun p => String.eqb p "telegram"
                                      || String.eqb p "wechat")
                            (attempted ok order)) <= 2)%nat).
    { change 2%nat with (List.length ["telegram"; "wechat"]).
      apply NoDup_incl_length; [now apply NoDup_filter|].
      intros x Hx. apply filter_In in Hx. destruct Hx as (_ & Hx).
      apply orb_true_iff in Hx.
      destruct Hx as [Hx|Hx]; apply String.eqb_eq in Hx; subst; cbn; auto. }
    lia.
  - assert (L3 : (List.length (attempted ok order)
                  <= List.length (get_available_notifiers env))%nat).
    { apply NoDup_incl_length; [exact ND|].
      intros x Hx. apply attempted_In in Hx.
      now apply try_order_In in Hx. }
    pose proof (filter_length_le
                  (fun p => String.eqb p "telegram" || String.eqb p "wechat")
                  (attempted ok order)).
    lia.
Qed.

Lemma calls_no_notifier env s message l :
  (forall p, In p l -> notifier_for env s p = None) ->
  calls env s message l = [].
Proof.
  induction l as [|p rest IH]; intros H; [reflexivity|].
  unfold calls in *. cbn [flat_map].
  rewrite (H p) by (cbn; auto). cbn [app].
  apply IH. intros q Hq; apply H; cbn; auto.
Qed.

(** X9.  When no enabled platform has a notifier (its name is neither
    telegram nor wechat, or its credentials are incomplete and no handle
    is cached), the dispatch returns false without a single call of
    [send_message], although platforms are enabled. *)
Theorem dispatch_without_usable_platform env message w :
  (forall p, In p (get_available_notifiers env) ->
             notifier_for env (self w) p = None) ->
  exists w',
    _send_notification env message w = (Ret false, w') /\
    sent w' = sent w.
Proof.
  intros H.
  destruct (_send_notification_spec env message w) as (w' & E & S' & _).
  assert (N : forall p,
             In p (try_order (get_default_ext_notify env)
                             (get_available_notifiers env)) ->
             notifier_for env (self w) p = None).
  { intros p Hp. apply H. now apply try_order_In in Hp. }
  exists w'. split.
  - rewrite E. f_equal. f_equal. unfold dispatch_ok.
    apply not_true_is_false. intros X. apply existsb_exists in X.
    destruct X as (p & Hp & Hok). unfold attempt_ok in Hok.
    rewrite (N p Hp) in Hok. discriminate.
  - rewrite S', calls_no_notifier; [apply app_nil_r|].
    intros p Hp. apply attempted_In in Hp. now apply N.
Qed.

(** ** The calls as transitions *)

Lemma feed_transition env timeout_ms string_info w :
  exists w',
    feed env timeout_ms string_info w = (Ret true, w') /\
    is_running w' = true /\
    timeout_occurred w' = false /\
    _last_feed_time (self w') = Some (now_at env (ticks w)) /\
    current_timeout_ms w'
    = match timeout_ms with
      | Some x => x
      | None => if is_running w then current_timeout_ms w else 30000
      end /\
    _start_info (self w')
    = if is_running w then _start_info (self w) else string_info.
Proof.
  unfold is_running, timeout_occurred, current_timeout_ms.
  destruct (_is_running (self w)) eqn:R.
  - destruct (feed_running_spec env timeout_ms string_info w R)
      as (w' & E & CR & CF & CT & CL & CI).
    exists w'. rewrite CR, CF, CT, CL, CI.
    destruct timeout_ms; cbn; repeat split; assumption.
  - destruct (feed_idle_spec env timeout_ms string_info w R)
      as (w' & E & CR & CF & CT & CL & CI).
    exists w'. rewrite CR, CF, CT, CL, CI.
    destruct timeout_ms; cbn; repeat split; assumption.
Qed.

(** X1.  Every [feed] returns true and leaves the watchdog running with
    the timeout flag clear and the last feed time at the reading of the
    clock.  The threshold is the one given; without one it stays as it is
    when the watchdog was running and is 30000 when it was idle.  The
    start info is taken from the feed that arms the watchdog only: a feed
    while running never changes it. *)
Theorem feed_effect env timeout_ms string_info w :
  exists w',
    feed env timeout_ms string_info w = (Ret true, w') /\
    is_running w' = true /\
    timeout_occurred w' = false /\
    _last_feed_time (self w') = Some (now_at env (ticks w)) /\
    current_timeout_ms w'
    = match timeout_ms with
      | Some x => x
      | None => if is_running w then current_timeout_ms w else 30000
      end /\
    _start_info (self w')
    = if is_running w then _start_info (self w) else string_info.
Proof.
  unfold is_running, timeout_occurred, current_timeout_ms.
  destruct (_is_running (self w)) eqn:R.
  - destruct (feed_running_spec env timeout_ms string_info w R)
      as (w' & E & CR & CF & CT & CL & CI).
    exists w'. rewrite CR, CF, CT, CL, CI.
    destruct timeout_ms; cbn; repeat split; assumption.
  - destruct (feed_idle_spec env timeout_ms string_info w R)
      as (w' & E & CR & CF & CT & CL & CI).
    exists w'. rewrite CR, CF, CT, CL, CI.
    destruct timeout_ms; cbn; repeat split; assumption.
Qed.

Lemma poll_transition env w :
  exists b w',
    poll env w = (Ret b, w') /\
    dispatched w' = dispatched w /\
    sent w' = sent w /\
    (self w' = self w \/
     (b = true /\ _is_timeout_occurred (self w) = false /\
      self w' = set_is_timeout_occurred true (self w))).
Proof.
  destruct (_is_running (self w)) eqn:R.
  - destruct (_last_feed_time (self w)) as [last|] eqn:L.
    + rewrite (poll_running env w last R L). cbv zeta.
      destruct (_is_timeout_occurred (self w)) eqn:F;
        destruct (is_timeout _ _ _); cbn;
        eexists _, _; (split; [reflexivity|]); cbn; auto 8.
    + exists true, w. unfold poll.
      rewrite (bind_Ret get_self _ w (self w) w eq_refl), R, L. auto 8.
  - rewrite (poll_idle env w R). eauto 8.
Qed.

(** X3.  [poll] never dispatches or sends anything and never raises.  It
    returns true only on a running watchdog, and with a last feed time
    only when the timeout flag was clear; there its result is the test of
    the elapsed time on a clear flag.  The watchdog after it is the same
    but for the timeout flag, which is set exactly when [poll] returns
    true on a watchdog that has a last feed time. *)
Theorem poll_effect env w :
  exists b w',
    poll env w = (Ret b, w') /\
    dispatched w' = dispatched w /\
    sent w' = sent w /\
    self w'
    = (if b && match _last_feed_time (self w) with
               | Some _ => true
               | None => false
               end
       then set_is_timeout_occurred true (self w)
       else self w) /\
    (b = true ->
     _is_running (self w) = true /\
     (_last_feed_time (self w) <> None ->
      _is_timeout_occurred (self w) = false)) /\
    (forall last,
       _is_running (self w) = true ->
       _last_feed_time (self w) = Some last ->
       b = is_timeout (now_at env (ticks w)) last (_timeout_ms (self w))
           && negb (_is_timeout_occurred (self w))).
Proof.
  destruct (_is_running (self w)) eqn:R.
  - destruct (_last_feed_time (self w)) as [last|] eqn:L.
    + rewrite (poll_running env w last R L). cbv zeta.
      eexists _, _. split; [reflexivity|]. cbn [dispatched sent self].
      split; [reflexivity|]. split; [reflexivity|].
      rewrite andb_true_r. split; [reflexivity|]. split.
      * intros Hb. split; [reflexivity|]. intros _.
        apply andb_true_iff in Hb. destruct Hb as (_ & Hb).
        now apply negb_true_iff in Hb.
      * intros last' _ E. now inversion E.
    + exists true, w. unfold poll.
      rewrite (bind_Ret get_self _ w (self w) w eq_refl), R, L.
      repeat split; try reflexivity; congruence.
  - rewrite (poll_idle env w R). exists false, w.
    repeat split; try reflexivity; try discriminate.
Qed.

(** X5.  After a call the watchdog runs exactly when the call was a feed,
    or was a poll of a running watchdog: [notify] and [manual_stop] are
    the only calls that stop it, and they always leave it idle. *)
Theorem running_after_call env c w :
  is_running (snd (run_call env c w))
  = match c with
    | Feed _ _ => true
    | Poll => is_running w
    | Notify | ManualStop _ => false
    end.
Proof.
  unfold is_running. destruct c as [tm info| | |info]; cbn [run_call].
  - destruct (feed_transition env tm info w) as (w' & E & R & _).
    rewrite E. exact R.
  - destruct (poll_transition env w) as (b & w' & E & _ & _ & [S|(_ & _ & S)]);
      rewrite E; cbn [snd]; now rewrite S.
  - destruct (_is_running (self w)) eqn:R.
    + destruct (notify_running_spec env w R)
        as (b & w1 & w' & _ & _ & _ & E & (CR & _) & _).
      rewrite E. exact CR.
    + now rewrite (notify_idle env w R).
  - destruct (_is_running (self w)) eqn:R.
    + destruct (manual_stop_running_spec env info w R)
        as (w' & E & (CR & _) & _).
      rewrite E. exact CR.
    + now rewrite (manual_stop_idle env info w R).
Qed.

(** X7.  After a feed, whatever the watchdog was doing before and whether
    or not a timeout had been signalled, the next poll returns the result
    of [poll]'s test of the elapsed time and nothing else: the test of the
    binary64 product against the threshold now in force.  For an elapsed
    time from 0 up to 2 ** 52 microseconds that is true when it exceeds
    the threshold and false when it is below; at an elapsed time equal to
    the threshold the rounding decides. *)
Theorem feed_restarts_detection env timeout_ms string_info w env' :
  let w' := snd (feed env timeout_ms string_info w) in
  let elapsed := now_at env' (ticks w') - now_at env (ticks w) in
  fst (poll env' w')
  = Ret (is_timeout (now_at env' (ticks w')) (now_at env (ticks w))
                    (current_timeout_ms w')) /\
  (0 <= elapsed < 2 ^ 52 ->
   elapsed <> 1000 * current_timeout_ms w' ->
   fst (poll env' w') = Ret (1000 * current_timeout_ms w' <? elapsed)).
Proof.
  cbv zeta.
  destruct (feed_transition env timeout_ms string_info w)
    as (w' & E & R & F & L & _).
  rewrite E; cbn [snd].
  rewrite (poll_running env' w' _ R L). cbv zeta. cbn [fst].
  unfold timeout_occurred in F. rewrite F. cbn [negb].
  rewrite andb_true_r. split; [reflexivity|].
  intros Hr Hne. f_equal. unfold current_timeout_ms in *.
  destruct (Z.ltb_spec (1000 * _timeout_ms (self w'))
                       (now_at env' (ticks w') - now_at env (ticks w))).
  - now apply is_timeout_above.
  - apply is_timeout_below; [exact Hr | lia].
Qed.

(** ** Alerts and exceptions *)

Lemma run_call_dispatched env c w :
  dispatched (snd (run_call env c w)) = dispatched w ++ alerts_of env c w.
Proof.
  destruct c as [tm info| | |info]; cbn [run_call alerts_of].
  - destruct (_is_running (self w)) eqn:R.
    + destruct w as [s tk dl sl]. cbn in R.
      unfold feed. run_m. rewrite R. run_m.
      destruct tm as [x|]; run_m; [|now rewrite app_nil_r].
      match goal with |- context [_update_timeout env x ?i ?w0] =>
        destruct (_update_timeout_spec env x i w0) as (w' & E & _ & _ & D)
      end.
      rewrite E. cbn in *. exact D.
    + unfold feed.
      rewrite (bind_Ret get_self _ w (self w) w eq_refl), R. cbn [negb].
      destruct (_internal_start_spec env
                  (match tm with Some t => t | None => 30000 end) info w)
        as (w' & E & _ & _ & D).
      rewrite E. exact D.
  - destruct (poll_transition env w) as (b & w' & E & D & _).
    rewrite E, app_nil_r. exact D.
  - destruct (_is_running (self w)) eqn:R.
    + destruct (notify_running_spec env w R)
        as (b & w1 & w' & E1 & _ & _ & E & _ & D).
      rewrite E; cbn [snd]. rewrite D.
      destruct (_send_notification_frame env (notify_alert env w)
                  (notify_world w)) as (b' & w1' & E1' & _ & T & _).
      assert (w1' = w1) by congruence. subst w1'. now rewrite T.
    + now rewrite (notify_idle env w R), app_nil_r.
  - destruct (_is_running (self w)) eqn:R.
    + destruct (manual_stop_running_spec env info w R) as (w' & E & _ & D).
      rewrite E. exact D.
    + now rewrite (manual_stop_idle env info w R), app_nil_r.
Qed.

(** X4.  The alerts a call hands to the router are those of [alerts_of]:
    the start alert when a feed arms the watchdog, the update alert with
    the old and the new threshold when a feed of a running watchdog gives
    a timeout, none for a feed without one and none for a poll; the
    timeout alert and then the auto-stop alert for [notify], the stop
    alert with the reason [Manual stop - info] for [manual_stop], and none
    for either on an idle watchdog. *)
Theorem alerts_of_call env c w :
  dispatched (snd (run_call env c w)) = dispatched w ++ alerts_of env c w.
Proof.
  destruct c as [tm info| | |info]; cbn [run_call alerts_of].
  - destruct (_is_running (self w)) eqn:R.
    + destruct w as [s tk dl sl]. cbn in R.
      unfold feed. run_m. rewrite R. run_m.
      destruct tm as [x|]; run_m; [|now rewrite app_nil_r].
      match goal with |- context [_update_timeout env x ?i ?w0] =>
        destruct (_update_timeout_spec env x i w0) as (w' & E & _ & _ & D)
      end.
      rewrite E. cbn in *. exact D.
    + unfold feed.
      rewrite (bind_Ret get_self _ w (self w) w eq_refl), R. cbn [negb].
      destruct (_internal_start_spec env
                  (match tm with Some t => t | None => 30000 end) info w)
        as (w' & E & _ & _ & D).
      rewrite E. exact D.
  - destruct (poll_transition env w) as (b & w' & E & D & _).
    rewrite E, app_nil_r. exact D.
  - destruct (_is_running (self w)) eqn:R.
    + destruct (notify_running_spec env w R)
        as (b & w1 & w' & E1 & _ & _ & E & _ & D).
      rewrite E; cbn [snd]. rewrite D.
      destruct (_send_notification_frame env (notify_alert env w)
                  (notify_world w)) as (b' & w1' & E1' & _ & T & _).
      assert (w1' = w1) by congruence. subst w1'. now rewrite T.
    + now rewrite (notify_idle env w R), app_nil_r.
  - destruct (_is_running (self w)) eqn:R.
    + destruct (manual_stop_running_spec env info w R) as (w' & E & _ & D).
      rewrite E. exact D.
    + now rewrite (manual_stop_idle env info w R), app_nil_r.
Qed.

Lemma run_call_never_raises env c : never_raises (run_call env c).
Proof.
  intros w. destruct c as [tm info| | |info]; cbn [run_call].
  - destruct (feed_transition env tm info w) as (w' & E & _). eauto.
  - destruct (poll_transition env w) as (b & w' & E & _). eauto.
  - destruct (_is_running (self w)) eqn:R.
    + destruct (notify_running_spec env w R)
        as (b & w1 & w' & _ & _ & _ & E & _). eauto.
    + rewrite (notify_idle env w R). eauto.
  - destruct (_is_running (self w)) eqn:R.
    + destruct (manual_stop_running_spec env info w R) as (w' & E & _).
      eauto.
    + rewrite (manual_stop_idle env info w R). eauto.
Qed.

(** X2.  No sequence of calls of the public methods ends in an exception,
    whatever the notifiers do: every call returns its boolean. *)
Theorem calls_never_raise env cs : never_raises (run_calls env cs).
Proof.
  induction cs as [|c cs IH]; intros w; cbn [run_calls].
  - unfold ret. eauto.
  - destruct (run_call_never_raises env c w) as (b & w1 & E).
    rewrite (bind_Ret _ _ _ _ _ E).
    destruct (IH w1) as (bs & w2 & E2).
    rewrite (bind_Ret _ _ _ _ _ E2). unfold ret. eauto.
Qed.

(** X6.  On an idle watchdog every call but a feed is a no-op: however
    many polls, notifies and manual stops follow one another, each returns
    false and the world stays as it is.  So a watchdog stopped by
    [notify] sends no second alert until it is fed again. *)
Theorem idle_calls_are_noops env cs w :
  is_running w = false ->
  forallb (fun c => negb (is_feed c)) cs = true ->
  run_calls env cs w = (Ret (repeat false (List.length cs)), w).
Proof.
  intros R. induction cs as [|c cs IH]; intros H; [reflexivity|].
  cbn [forallb] in H. apply andb_true_iff in H. destruct H as (Hc & Hcs).
  cbn [run_calls List.length repeat].
  assert (E : run_call env c w = (Ret false, w)).
  { destruct c as [tm info| | |info]; cbn [run_call]; [discriminate| | |].
    - now apply poll_idle.
    - now apply notify_idle.
    - now apply manual_stop_idle. }
  rewrite (bind_Ret _ _ _ _ _ E), (bind_Ret _ _ _ _ _ (IH Hcs)).
  reflexivity.
Qed.

(** ** What reaches the notifiers *)

Lemma alerts_tagged env c w :
  Forall (fun m => String.prefix "[WATCHDOG] " m = true) (alerts_of env c w).
Proof.
  destruct c as [tm info| | |info]; cbn [alerts_of];
    repeat match goal with
           | |- context [if ?b then _ else _] => destruct b
           | |- context [match ?o with Some _ => _ | None => _ end] =>
               destruct o
           end;
    repeat constructor;
    unfold notify_alert, start_message, update_message, stop_message,
      timeout_message;
    repeat match goal with
           | |- context [match ?o with Some _ => _ | None => _ end] =>
               destruct o
           end;
    reflexivity.
Qed.

Lemma reachable_dispatched_tagged w :
  reachable w ->
  Forall (fun m => String.prefix "[WATCHDOG] " m = true) (dispatched w).
Proof.
  induction 1 as [|env c w _ IH]; [constructor|].
  rewrite run_call_dispatched. apply Forall_app. split; [exact IH|].
  apply alerts_tagged.
Qed.

Lemma preserves_ret P {A} (a : A) : preserves P (ret a).
Proof. intros w H; exact H. Qed.

Lemma preserves_bind P {A B} (m : M A) (k : A -> M B) :
  preserves P m -> (forall a, preserves P (k a)) -> preserves P (bind m k).
Proof.
  intros Hm Hk w H. unfold bind. specialize (Hm w H).
  destruct (m w) as [[a|e] w1]; cbn [snd] in *; [|exact Hm].
  now apply Hk.
Qed.

Lemma preserves_get_self P : preserves P get_self.
Proof. intros w H; exact H. Qed.

Lemma preserves_modify_self f : preserves sent_was_dispatched (modify_self f).
Proof. intros w H; exact H. Qed.

Lemma preserves_datetime_now env :
  preserves sent_was_dispatched (datetime_now env).
Proof. intros w H; exact H. Qed.

Lemma calls_message env s message l n m :
  In (n, m) (calls env s message l) -> m = message.
Proof.
  unfold calls. rewrite in_flat_map. intros (p & _ & H).
  destruct (notifier_for env s p); cbn in H; [|tauto].
  destruct H as [H|[]]. congruence.
Qed.

Lemma preserves_send_notification env message :
  preserves sent_was_dispatched (_send_notification env message).
Proof.
  intros w H.
  destruct (_send_notification_spec env message w) as (w' & E & S' & D & _).
  rewrite E; cbn [snd]. intros n m Hin.
  rewrite S' in Hin. rewrite D. apply in_app_iff.
  apply in_app_iff in Hin. destruct Hin as [Hin|Hin].
  - left. eapply H; eauto.
  - right. apply calls_message in Hin. subst; cbn; auto.
Qed.

(** Closes a goal [preserves sent_was_dispatched m] for [m] built from
    the primitives and the router. *)
Ltac preserves_sent :=
  repeat first
    [ apply preserves_ret
    | apply preserves_get_self
    | apply preserves_datetime_now
    | apply preserves_send_notification
    | apply preserves_modify_self
    | apply preserves_bind; [|intros ?] ].

Lemma preserves_run_call env c :
  preserves sent_was_dispatched (run_call env c).
Proof.
  destruct c as [tm info| | |info]; cbn [run_call].
  - unfold feed. apply preserves_bind; [apply preserves_get_self|].
    intros s. destruct (negb (_is_running s)).
    + unfold _internal_start. preserves_sent.
    + preserves_sent. destruct tm; preserves_sent.
  - unfold poll. apply preserves_bind; [apply preserves_get_self|].
    intros s. destruct (negb (_is_running s)); [apply preserves_ret|].
    destruct (_last_feed_time s); [|apply preserves_ret].
    preserves_sent. destruct (_ && _); preserves_sent.
  - unfold notify. apply preserves_bind; [apply preserves_get_self|].
    intros s. destruct (negb (_is_running s)); [apply preserves_ret|].
    apply preserves_bind; [destruct (_last_feed_time s); preserves_sent|].
    intros el. preserves_sent.
  - unfold manual_stop. apply preserves_bind; [apply preserves_get_self|].
    intros s. destruct (negb (_is_running s)); [apply preserves_ret|].
    unfold _internal_stop. preserves_sent.
Qed.

(** X13.  In every world a watchdog can reach, each message a notifier
    was called with is one of the alerts handed to the router, and each
    of those begins with the tag [[WATCHDOG] ]: nothing else ever reaches
    a channel. *)
Theorem only_tagged_alerts_are_sent w :
  reachable w ->
  forall n m,
    In (n, m) (sent w) ->
    In m (dispatched w) /\ String.prefix "[WATCHDOG] " m = true.
Proof.
  intros Hr n m Hin.
  assert (S : sent_was_dispatched w).
  { clear n m Hin. induction Hr as [|env c w _ IH]; [intros ? ? []|].
    now apply preserves_run_call. }
  pose proof (S n m Hin) as Hd. split; [exact Hd|].
  pose proof (reachable_dispatched_tagged w Hr) as T.
  rewrite Forall_forall in T. now apply T.
Qed.

(** * The custom actions *)

Lemma try_feed env timeout_ms string_info w :
  try_except (success <- feed env timeout_ms string_info ;; ret success)
             (fun _ => ret false) w
  = feed env timeout_ms string_info w.
Proof.
  destruct (feed_transition env timeout_ms string_info w) as (w' & E & _).
  unfold try_except. rewrite (bind_Ret _ _ _ _ _ E), E. reflexivity.
Qed.

Lemma try_manual_stop env string_info w :
  try_except (success <- manual_stop env string_info ;; ret success)
             (fun _ => ret false) w
  = manual_stop env string_info w.
Proof.
  destruct (run_call_never_raises env (ManualStop string_info) w)
    as (b & w' & E).
  cbn [run_call] in E.
  unfold try_except. rewrite (bind_Ret _ _ _ _ _ E), E. reflexivity.
Qed.

(** What [WatchdogFeedAction.run] comes to when its arguments are an
    integer or absent timeout and a string. *)
Lemma feed_action_runs_feed json_loads env param timeout_ms string_info :
  as_timeout (fst (feed_action_args json_loads param)) = Some timeout_ms ->
  as_info (snd (feed_action_args json_loads param)) = Some string_info ->
  exists m,
    WatchdogFeedAction_run json_loads env param = Some m /\
    forall w, m w = feed env timeout_ms string_info w.
Proof.
  intros Ht Hi. unfold WatchdogFeedAction_run.
  destruct (feed_action_args json_loads param) as [vt vi]. cbn in Ht, Hi.
  rewrite Ht, Hi. eexists; split; [reflexivity|].
  intros w. apply try_feed.
Qed.

Lemma stop_action_runs_manual_stop json_loads env param string_info :
  as_info (stop_action_info json_loads param) = Some string_info ->
  exists m,
    WatchdogStopAction_run json_loads env param = Some m /\
    forall w, m w = manual_stop env string_info w.
Proof.
  intros Hi. unfold WatchdogStopAction_run. rewrite Hi.
  eexists; split; [reflexivity|]. intros w. apply try_manual_stop.
Qed.

(** X14.  Wherever the feed action is defined its result is success, in
    every world and whatever the notifiers do, and the watchdog runs
    afterwards. *)
Theorem feed_action_succeeds json_loads env param m :
  WatchdogFeedAction_run json_loads env param = Some m ->
  forall w, exists w', m w = (Ret true, w') /\ is_running w' = true.
Proof.
  unfold WatchdogFeedAction_run.
  destruct (feed_action_args json_loads param) as [vt vi].
  destruct (as_timeout vt) as [tm|]; [|discriminate].
  destruct (as_info vi) as [info|]; [|discriminate].
  intros H w. inversion H; subst. rewrite try_feed.
  destruct (feed_transition env tm info w) as (w' & E & R & _). eauto.
Qed.

(** X15.  Wherever the stop action is defined its result tells whether
    the watchdog was running, and the watchdog is idle afterwards. *)
Theorem stop_action_reports_running json_loads env param m :
  WatchdogStopAction_run json_loads env param = Some m ->
  forall w, exists w', m w = (Ret (is_running w), w') /\ is_running w' = false.
Proof.
  unfold WatchdogStopAction_run.
  destruct (as_info (stop_action_info json_loads param)) as [info|];
    [|discriminate].
  intros H w. inversion H; subst. rewrite try_manual_stop.
  unfold is_running. destruct (_is_running (self w)) eqn:R.
  - destruct (manual_stop_running_spec env info w R)
      as (w' & E & (CR & _) & _). eauto.
  - rewrite (manual_stop_idle env info w R). eauto.
Qed.

(** X16.  The two actions read the info out of a parameter in the same
    way, though their code branches differently. *)
Theorem actions_agree_on_info json_loads param :
  snd (feed_action_args json_loads param)
  = stop_action_info json_loads param.
Proof.
  unfold feed_action_args, stop_action_info.
  destruct param as [| | | |s| |items]; try reflexivity.
  destruct (json_loads s) as [v|]; [|reflexivity].
  destruct v; reflexivity.
Qed.

(** X17.  A string parameter that is not JSON is the info, with no
    timeout: the feed action is [feed(None, s)] and the stop action
    [manual_stop(s)].  A string that is JSON but no object is dropped
    altogether, a number included: the actions are [feed(None, '')] and
    [manual_stop('')]. *)
Theorem string_parameter json_loads env s :
  let unless_object (string_info : string) :=
    (exists m,
       WatchdogFeedAction_run json_loads env (PStr s) = Some m /\
       forall w, m w = feed env None string_info w) /\
    (exists m,
       WatchdogStopAction_run json_loads env (PStr s) = Some m /\
       forall w, m w = manual_stop env string_info w) in
  match json_loads s with
  | None => unless_object s
  | Some (PDict _) => True
  | Some _ => unless_object EmptyString
  end.
Proof.
  cbv zeta.
  destruct (json_loads s) as [v|] eqn:J.
  - destruct v; try exact I;
      (split;
       [ apply feed_action_runs_feed;
         unfold feed_action_args; rewrite J; reflexivity
       | apply stop_action_runs_manual_stop;
         unfold stop_action_info; rewrite J; reflexivity ]).
  - split.
    + apply feed_action_runs_feed;
        unfold feed_action_args; rewrite J; reflexivity.
    + apply stop_action_runs_manual_stop;
        unfold stop_action_info; rewrite J; reflexivity.
Qed.

(** X18.  A JSON text of an object and the object itself are the same
    parameter to both actions.  Of an object the feed action takes the
    info under [info] (empty when missing) and the timeout under
    [timeout_ms]: an integer there is the timeout of the feed, a missing
    key or a null is a feed without timeout. *)
Theorem object_parameter json_loads env items :
  (forall s, json_loads s = Some (PDict items) ->
     WatchdogFeedAction_run json_loads env (PStr s)
     = WatchdogFeedAction_run json_loads env (PDict items) /\
     WatchdogStopAction_run json_loads env (PStr s)
     = WatchdogStopAction_run json_loads env (PDict items)) /\
  (forall string_info,
     as_info (dict_get items "info" (PStr "")) = Some string_info ->
     match dict_lookup items "timeout_ms" with
     | Some (PInt x) =>
         exists m,
           WatchdogFeedAction_run json_loads env (PDict items) = Some m /\
           forall w, m w = feed env (Some x) string_info w
     | None | Some PNone =>
         exists m,
           WatchdogFeedAction_run json_loads env (PDict items) = Some m /\
           forall w, m w = feed env None string_info w
     | Some _ => True
     end).
Proof.
  split.
  - intros s J. unfold WatchdogFeedAction_run, WatchdogStopAction_run,
      feed_action_args, stop_action_info. rewrite J. split; reflexivity.
  - intros info Hi.
    destruct (dict_lookup items "timeout_ms") as [v|] eqn:L.
    + destruct v; try exact I;
        (apply feed_action_runs_feed;
         [ unfold feed_action_args; cbn; rewrite L; reflexivity
         | exact Hi ]).
    + apply feed_action_runs_feed;
        [ unfold feed_action_args; cbn; rewrite L; reflexivity
        | exact Hi ].
Qed.

(** * The further properties in the scenario *)

(** The armed watchdog holds both handles; under [silent_env], whose
    configuration is empty, a call keeps them, the getter returns the
    cached one and the attempt goes through it. *)
Lemma cached_handle_is_kept_witness :
  _telegram_notifier (self armed) = Some (TelegramNotifier "token" "chat") /\
  _telegram_notifier (self (snd (run_call silent_env Notify armed)))
  = Some (TelegramNotifier "token" "chat") /\
  _get_telegram_notifier silent_env armed
  = (Ret (Some (TelegramNotifier "token" "chat")), armed) /\
  forall d message,
    sent (snd (try_platform silent_env d message "telegram" armed))
    = sent armed ++ [(TelegramNotifier "token" "chat", message)].
Proof.
  split; [reflexivity|].
  apply (proj1 (cached_handle_is_kept silent_env Notify armed)).
  reflexivity.
Defined.

Lemma feed_restarts_detection_witness :
  let w' := snd (feed scenario_env None "" signalled) in
  let elapsed :=
    now_at scenario_env (ticks w') - now_at scenario_env (ticks signalled) in
  0 <= elapsed < 2 ^ 52 /\
  elapsed <> 1000 * current_timeout_ms w' /\
  fst (poll scenario_env w')
  = Ret (1000 * current_timeout_ms w' <? elapsed).
Proof.
  cbv zeta.
  assert (Hr : 0 <= now_at scenario_env
                      (ticks (snd (feed scenario_env None "" signalled)))
                    - now_at scenario_env (ticks signalled) < 2 ^ 52)
    by (vm_compute; split; [discriminate | reflexivity]).
  assert (Hne : now_at scenario_env
                  (ticks (snd (feed scenario_env None "" signalled)))
                - now_at scenario_env (ticks signalled)
                <> 1000 * current_timeout_ms
                            (snd (feed scenario_env None "" signalled)))
    by (vm_compute; discriminate).
  split; [exact Hr|]. split; [exact Hne|].
  exact (proj2 (feed_restarts_detection scenario_env None "" signalled
                  scenario_env) Hr Hne).
Defined.

Lemma reachable_handles_well_formed_witness :
  reachable stopped /\ handles_well_formed (self stopped).
Proof.
  split; [apply reachable_stopped|].
  apply (reachable_handles_well_formed stopped). apply reachable_stopped.
Defined.

Lemma dispatch_without_usable_platform_witness :
  get_available_notifiers unusable_env = ["discord"; "telegram"] /\
  exists w',
    _send_notification unusable_env "ping" init_world = (Ret false, w') /\
    sent w' = sent init_world.
Proof.
  split; [reflexivity|].
  apply (dispatch_without_usable_platform unusable_env "ping" init_world).
  intros p [<-|[<-|[]]]; reflexivity.
Defined.

Lemma idle_calls_are_noops_witness :
  is_running stopped = false /\
  run_calls scenario_env [Notify; Poll; ManualStop "again"; Notify] stopped
  = (Ret [false; false; false; false], stopped).
Proof.
  split; [reflexivity|].
  apply (idle_calls_are_noops scenario_env
           [Notify; Poll; ManualStop "again"; Notify] stopped);
    reflexivity.
Defined.

Lemma only_tagged_alerts_are_sent_witness :
  exists n m,
    In (n, m) (sent stopped) /\
    In m (dispatched stopped) /\
    String.prefix "[WATCHDOG] " m = true.
Proof.
  exists (fst (hd (TelegramNotifier "" "", "") (sent stopped))),
         (snd (hd (TelegramNotifier "" "", "") (sent stopped))).
  assert (Hin : In (fst (hd (TelegramNotifier "" "", "") (sent stopped)),
                    snd (hd (TelegramNotifier "" "", "") (sent stopped)))
                   (sent stopped)) by (vm_compute; left; reflexivity).
  split; [exact Hin|].
  exact (only_tagged_alerts_are_sent stopped reachable_stopped _ _ Hin).
Defined.

Lemma feed_action_succeeds_witness :
  exists m,
    WatchdogFeedAction_run toy_json_loads failing_env
      (PStr json_timeout_and_info) = Some m /\
    forall w, exists w', m w = (Ret true, w') /\ is_running w' = true.
Proof.
  eexists. split; [reflexivity|].
  apply (feed_action_succeeds toy_json_loads failing_env
           (PStr json_timeout_and_info)).
  reflexivity.
Defined.

Lemma stop_action_reports_running_witness :
  exists m,
    WatchdogStopAction_run toy_json_loads failing_env (PStr "done") = Some m /\
    forall w,
      exists w', m w = (Ret (is_running w), w') /\ is_running w' = false.
Proof.
  eexists. split; [reflexivity|].
  apply (stop_action_reports_running toy_json_loads failing_env
           (PStr "done")).
  reflexivity.
Defined.

(** The text [5000] is JSON and no object: the feed action arms the
    watchdog with 30000 ms and an empty info. *)
Example feed_action_on_a_number :
  exists m,
    WatchdogFeedAction_run toy_json_loads scenario_env (PStr "5000") = Some m /\
    current_timeout_ms (snd (m init_world)) = 30000 /\
    _start_info (self (snd (m init_world))) = "".
Proof. eexists. split; [reflexivity|]. split; reflexivity. Qed.

Example feed_action_on_an_object :
  exists m,
    WatchdogFeedAction_run toy_json_loads scenario_env
      (PStr json_timeout_and_info) = Some m /\
    current_timeout_ms (snd (m init_world)) = 5000 /\
    _start_info (self (snd (m init_world))) = "job".
Proof. eexists. split; [reflexivity|]. split; reflexivity. Qed.

Lemma string_parameter_witness :
  ((exists m,
      WatchdogFeedAction_run toy_json_loads scenario_env (PStr "job 7")
      = Some m /\
      forall w, m w = feed scenario_env None "job 7" w) /\
   (exists m,
      WatchdogStopAction_run toy_json_loads scenario_env (PStr "job 7")
      = Some m /\
      forall w, m w = manual_stop scenario_env "job 7" w)) /\
  ((exists m,
      WatchdogFeedAction_run toy_json_loads scenario_env (PStr "5000")
      = Some m /\
      forall w, m w = feed scenario_env None "" w) /\
   (exists m,
      WatchdogStopAction_run toy_json_loads scenario_env (PStr "5000")
      = Some m /\
      forall w, m w = manual_stop scenario_env "" w)).
Proof.
  split.
  - exact (string_parameter toy_json_loads scenario_env "job 7").
  - exact (string_parameter toy_json_loads scenario_env "5000").
Defined.

Lemma object_parameter_witness :
  (WatchdogFeedAction_run toy_json_loads scenario_env
     (PStr json_info_only)
   = WatchdogFeedAction_run toy_json_loads scenario_env
       (PDict [("info", PStr "job")])) /\
  (exists m,
     WatchdogFeedAction_run toy_json_loads scenario_env
       (PDict [("timeout_ms", PInt 5000); ("info", PStr "job")]) = Some m /\
     forall w, m w = feed scenario_env (Some 5000) "job" w) /\
  (exists m,
     WatchdogFeedAction_run toy_json_loads scenario_env
       (PDict [("timeout_ms", PNone)]) = Some m /\
     forall w, m w = feed scenario_env None "" w).
Proof.
  split; [|split].
  - apply (proj1 (object_parameter toy_json_loads scenario_env
                    [("info", PStr "job")]) json_info_only).
    reflexivity.
  - apply (proj2 (object_parameter toy_json_loads scenario_env
                    [("timeout_ms", PInt 5000); ("info", PStr "job")]) "job").
    reflexivity.
  - apply (proj2 (object_parameter toy_json_loads scenario_env
                    [("timeout_ms", PNone)]) "").
    reflexivity.
Defined.
